(** * proactivebot: a shallow embedding of [src/app.ts]

    The bot keeps two process-wide tables: [storage] (a per-conversation
    counter record) and [conversationReferences] (the routing reference of
    every conversation seen so far).  Two inbound handlers ([install.add],
    [message]) and two HTTP handlers ([POST /api/notify],
    [GET /api/conversations]) read and write them.

    Handlers are written in a small state-and-output monad over [World];
    JavaScript objects that the code shares by reference (the counter
    records) live in an explicit [heap]. *)

From Stdlib Require Import ZArith Ascii String.
From stdpp Require Import gmap strings list fin_maps pretty.

Local Open Scope string_scope.
Local Open Scope list_scope.

(** ** JavaScript values

    [req.body] is typed [any] in the source and is tested dynamically
    ([!conversationId], [Array.isArray(mentions)], [err.message || ...]), so
    request data is modelled as untyped JSON values.  [JNum] carries the
    integer-valued numbers (a number is the double nearest to the integer
    written). *)

#[local] Set Warnings "-register-all".

Inductive jsval : Type :=
| JUndefined
| JNull
| JBool (b : bool)
| JNum (n : Z)
| JStr (s : string)
| JArr (items : list jsval)
| JObj (fields : list (string * jsval)).

(** ToBoolean: what [if (v)], [!v] and [v || w] test. *)
Definition truthy (v : jsval) : bool :=
  match v with
  | JUndefined | JNull => false
  | JBool b => b
  | JNum n => negb (n =? 0)%Z
  | JStr s => negb (String.eqb s EmptyString)
  | JArr _ | JObj _ => true
  end.

(** [a || b] *)
Definition js_or (a b : jsval) : jsval := if truthy a then a else b.

Definition nullish (v : jsval) : bool :=
  match v with
  | JUndefined | JNull => true
  | _ => false
  end.

Fixpoint lookup_field (k : string) (fields : list (string * jsval)) : jsval :=
  match fields with
  | [] => JUndefined
  | (k', v) :: rest => if String.eqb k k' then v else lookup_field k rest
  end.

(** Reading a data property [k] that no primitive or array defines (the
    source only reads [conversationId], [message], [replyToId], [mentions],
    [name] and [id]): own fields of an object, [undefined] elsewhere. *)
Definition field (v : jsval) (k : string) : jsval :=
  match v with
  | JObj fields => lookup_field k fields
  | _ => JUndefined
  end.

(** ** Completions: a value, or a thrown error object *)

Record JsError : Type := mkError { error_message : jsval }.

Inductive Completion (A : Type) : Type :=
| Normal (a : A)
| Throw (err : JsError).
Arguments Normal {A} a.
Arguments Throw {A} err.

Definition TypeError (msg : string) : JsError := mkError (JStr msg).

(** ** Number::toString on integer values

    A number is a double: [nearest_double] is the double an integer reads
    as (nearest, ties to the even mantissa).  Its text is the shortest digit
    string that reads back as the same double, written out in full up to
    21 digits and in exponent form beyond. *)
Definition nearest_double (n : Z) : Z :=
  if (n <? 2 ^ 53)%Z then n
  else
    let q := (Z.log2 n - 52)%Z in
    let m := Z.shiftr n q in
    let r := (n - Z.shiftl m q)%Z in
    let half := Z.shiftl 1 (q - 1) in
    let m' := if (half <? r)%Z || ((r =? half)%Z && Z.odd m) then (m + 1)%Z else m in
    Z.shiftl m' q.

Definition decimal_length (n : Z) : Z := Z.of_nat (String.length (pretty n)).

(** The [k]-digit decimal closest to the double [v] among those that read
    back as [v], as digits and power of ten, if there is one. *)
Definition candidate (v k : Z) : option (Z * Z) :=
  let e := (decimal_length v - k)%Z in
  if (e <? 0)%Z then Some (v, 0%Z)
  else
    let scale := (10 ^ e)%Z in
    let s1 := (v / scale)%Z in
    let s2 := (s1 + 1)%Z in
    let ok1 := (nearest_double (s1 * scale) =? v)%Z in
    let ok2 := (nearest_double (s2 * scale) =? v)%Z in
    let d1 := (v - s1 * scale)%Z in
    let d2 := (s2 * scale - v)%Z in
    match ok1, ok2 with
    | true, true =>
        if (d1 <? d2)%Z then Some (s1, e)
        else if (d2 <? d1)%Z then Some (s2, e)
        else if Z.even s1 then Some (s1, e) else Some (s2, e)
    | true, false => Some (s1, e)
    | false, true => Some (s2, e)
    | false, false => None
    end.

Fixpoint shortest (v : Z) (ks : list Z) : Z * Z :=
  match ks with
  | [] => (v, 0%Z)
  | k :: rest =>
      match candidate v k with
      | Some c => c
      | None => shortest v rest
      end
  end.

Fixpoint strip_zeros (fuel : nat) (s e : Z) : Z * Z :=
  match fuel with
  | O => (s, e)
  | S fuel' =>
      if (0 <? s)%Z && (s mod 10 =? 0)%Z
      then strip_zeros fuel' (s / 10)%Z (e + 1)%Z
      else (s, e)
  end.

Fixpoint zeros (n : nat) : string :=
  match n with
  | O => EmptyString
  | S n' => String "0"%char (zeros n')
  end.

Definition Number_toString_nonneg (n : Z) : string :=
  let v := nearest_double n in
  if (2 ^ 1024 <=? v)%Z then "Infinity"
  else if (v <? 2 ^ 53)%Z then pretty v
  else
    let '(s0, e0) := shortest v (seqZ 1 17) in
    let '(s, e) := strip_zeros 400 s0 e0 in
    let digits := pretty s in
    let point := (Z.of_nat (String.length digits) + e)%Z in
    if (point <=? 21)%Z then digits +:+ zeros (Z.to_nat e)
    else
      match digits with
      | EmptyString => EmptyString
      | String d EmptyString => String d EmptyString +:+ "e+" +:+ pretty (point - 1)%Z
      | String d rest => String d ("." +:+ rest) +:+ "e+" +:+ pretty (point - 1)%Z
      end.

Definition Number_toString (n : Z) : string :=
  if (n <? 0)%Z then "-" +:+ Number_toString_nonneg (- n)
  else Number_toString_nonneg n.

(** ** ToString, as a template literal applies it

    Values come from JSON, so no property is callable.  An object with an
    own [toString] key therefore has nothing to convert it and the
    conversion throws; any other object is "[object Object]".  An array is
    its elements joined by commas ([null] and [undefined] as the empty
    text), and throws where an element does. *)
Definition has_own (k : string) (fields : list (string * jsval)) : bool :=
  existsb (λ kv, String.eqb k (fst kv)) fields.

Fixpoint ToString (v : jsval) : Completion string :=
  match v with
  | JUndefined => Normal "undefined"
  | JNull => Normal "null"
  | JBool true => Normal "true"
  | JBool false => Normal "false"
  | JNum n => Normal (Number_toString n)
  | JStr s => Normal s
  | JArr items =>
      (fix join (l : list jsval) : Completion string :=
         match l with
         | [] => Normal EmptyString
         | x :: rest =>
             match (if nullish x then Normal EmptyString else ToString x) with
             | Throw e => Throw e
             | Normal first =>
                 match rest with
                 | [] => Normal first
                 | _ :: _ =>
                     match join rest with
                     | Throw e => Throw e
                     | Normal others => Normal (first +:+ "," +:+ others)
                     end
                 end
             end
         end) items
  | JObj fields =>
      if has_own "toString" fields
      then Throw (TypeError "Cannot convert object to primitive value")
      else Normal "[object Object]"
  end.

(** [v.k] inside the [try] block: reading a property of [null] or
    [undefined] throws a TypeError (message text as V8 words it). *)
Definition get_property (v : jsval) (k : string) : Completion jsval :=
  match v with
  | JNull =>
      Throw (TypeError ("Cannot read properties of null (reading '" +:+ k +:+ "')"))
  | JUndefined =>
      Throw (TypeError ("Cannot read properties of undefined (reading '" +:+ k +:+ "')"))
  | _ => Normal (field v k)
  end.

(** [Array.prototype.map] with a callback that may throw: the first throw
    aborts the whole map. *)
Fixpoint map_completion {A B : Type} (f : A -> Completion B) (l : list A)
  : Completion (list B) :=
  match l with
  | [] => Normal []
  | x :: rest =>
      match f x with
      | Throw e => Throw e
      | Normal y =>
          match map_completion f rest with
          | Throw e => Throw e
          | Normal ys => Normal (y :: ys)
          end
      end
  end.

(** ** A JavaScript [Map] with string keys

    Entries are kept in insertion order; [set] on a present key replaces the
    value where it stands, [set] on a new key appends. *)
Module JsMap.

Definition t (V : Type) : Type := list (string * V).

Definition empty {V : Type} : t V := [].

Fixpoint get {V : Type} (k : string) (m : t V) : option V :=
  match m with
  | [] => None
  | (k', v) :: rest => if String.eqb k k' then Some v else get k rest
  end.

Fixpoint set {V : Type} (k : string) (v : V) (m : t V) : t V :=
  match m with
  | [] => [(k, v)]
  | (k', v') :: rest =>
      if String.eqb k k' then (k, v) :: rest else (k', v') :: set k v rest
  end.

Definition keys {V : Type} (m : t V) : list string := map fst m.

Definition entries {V : Type} (m : t V) : list (string * V) := m.

Lemma get_set_eq {V : Type} (k : string) (v : V) (m : t V) :
  get k (set k v m) = Some v.
Proof.
  induction m as [|[k' v'] rest IH]; simpl.
  - by rewrite String.eqb_refl.
  - destruct (String.eqb k k') eqn:E; simpl.
    + by rewrite String.eqb_refl.
    + by rewrite E.
Qed.

Lemma get_set_ne {V : Type} (k k0 : string) (v : V) (m : t V) :
  k ≠ k0 -> get k0 (set k v m) = get k0 m.
Proof.
  intros Hne. induction m as [|[k' v'] rest IH]; simpl.
  - destruct (String.eqb k0 k) eqn:E; [|done].
    apply String.eqb_eq in E. congruence.
  - destruct (String.eqb k k') eqn:E; simpl.
    + apply String.eqb_eq in E. subst k'.
      destruct (String.eqb k0 k) eqn:E0; [|done].
      apply String.eqb_eq in E0. congruence.
    + by rewrite IH.
Qed.

Lemma elem_of_keys {V : Type} (k : string) (m : t V) :
  k ∈ keys m <-> is_Some (get k m).
Proof.
  induction m as [|[k' v'] rest IH]; simpl.
  - split; [by intros ?%elem_of_nil | by intros [? ?]].
  - rewrite elem_of_cons. destruct (String.eqb k k') eqn:E.
    + apply String.eqb_eq in E. split; eauto.
    + apply String.eqb_neq in E. rewrite <- IH. unfold keys. tauto.
Qed.

Lemma keys_set_present {V : Type} (k : string) (v : V) (m : t V) :
  is_Some (get k m) -> keys (set k v m) = keys m.
Proof.
  induction m as [|[k' v'] rest IH]; simpl.
  - by intros [? ?].
  - destruct (String.eqb k k') eqn:E; simpl.
    + apply String.eqb_eq in E. by subst.
    + intros H. unfold keys in *. simpl. by rewrite IH.
Qed.

Lemma keys_set_absent {V : Type} (k : string) (v : V) (m : t V) :
  get k m = None -> keys (set k v m) = keys m ++ [k].
Proof.
  induction m as [|[k' v'] rest IH]; simpl; [done|].
  destruct (String.eqb k k') eqn:E; [done|].
  intros H. unfold keys in *. simpl. by rewrite IH.
Qed.

Lemma NoDup_keys_set {V : Type} (k : string) (v : V) (m : t V) :
  NoDup (keys m) -> NoDup (keys (set k v m)).
Proof.
  intros Hnd. destruct (get k m) as [v0|] eqn:E.
  - by rewrite keys_set_present.
  - rewrite keys_set_absent by done.
    apply NoDup_app. split_and!; [done| |apply NoDup_singleton].
    intros x Hx ->%list_elem_of_singleton.
    apply elem_of_keys in Hx. rewrite E in Hx. by destruct Hx.
Qed.

End JsMap.

(** ** Data model *)

(** [interface ConversationState { count: number }].  The counter starts
    at 0 and only ever grows by [count++], so it is an integer (and stays in
    the range where JavaScript numbers count exactly). *)
Record ConversationState : Type := mkState { count : Z }.

(** The library's conversation account and [ConversationReference]: the
    fields the source reads are named, every other property travels in
    [conv_rest] / [ref_rest] (object spread copies them unchanged). *)
Record ConversationAccount : Type := mkAccount {
  conv_id : string;
  conversationType : option string;
  conv_rest : list (string * jsval);
}.

Record ConversationReference : Type := mkRef {
  conversation : ConversationAccount;
  serviceUrl : string;
  ref_rest : list (string * jsval);
}.

(** An inbound activity and the handler context around it
    ([context.activity], [context.ref]). *)
Record Activity : Type := mkActivity {
  activity_conversation : ConversationAccount;
  activity_text : string;
  activity_rest : list (string * jsval);
}.

Record Context : Type := mkContext {
  activity : Activity;
  ref : ConversationReference;
}.

(** One element of [activityParams.entities]:
    [{ type: "mention", text: `<at>${m.name}</at>`,
       mentioned: { id: m.id, name: m.name } }]. *)
Record MentionEntity : Type := mkMention {
  entity_type : string;
  entity_text : string;
  mentioned_id : jsval;
  mentioned_name : jsval;
}.

(** The payload handed to the send primitive.  [toActivityParams] belongs
    to the messaging library (for a string it makes the message activity
    carrying that text); the payload is kept symbolic as the activity-like
    value it was built from, with [entities] not yet set. *)
Record ActivityParams : Type := mkParams {
  params_from : jsval;
  entities : option (list MentionEntity);
}.

Definition toActivityParams (activityLike : jsval) : ActivityParams :=
  mkParams activityLike None.

(** What [app.http.send] resolves to: the sent activity, of which the
    handler reads [result.id]. *)
Record SentActivity : Type := mkSent { sent_id : string }.

(** HTTP responses: [res.status(n).json(body)]; [res.json] alone is 200. *)
Inductive ResponseBody : Type :=
| ErrorBody (error : jsval)
| NotFoundBody (error : string) (knownConversations : list string)
| SentBody (status : string) (activityId : string).

Record Response : Type := mkResponse {
  status_code : Z;
  response_body : ResponseBody;
}.

(** One row of [GET /api/conversations]. *)
Record ConversationSummary : Type := mkSummary {
  summary_conversationId : string;
  summary_conversationType : option string;
  summary_serviceUrl : string;
}.

(** ** The process state

    [heap] holds the counter records allocated by [{ count: 0 }]; [storage]
    maps a conversation id to the address of its record, so that a record
    returned by [storage.get] and the stored one are the same object;
    [conversationReferences] is the [Map] of cached references. *)
Definition loc : Type := nat.

Record World : Type := mkWorld {
  heap : gmap loc ConversationState;
  storage : gmap string loc;
  conversationReferences : JsMap.t ConversationReference;
}.

Definition init_world : World := mkWorld ∅ ∅ JsMap.empty.

(** What a handler does to the outside: a reply on the inbound channel, or
    a call of the external send primitive. *)
Inductive Effect : Type :=
| ContextSend (text : string)
| HttpSend (params : ActivityParams) (target : ConversationReference).

(** ** The handler monad: state passing over [World], effects logged in
    order. *)
Definition M (A : Type) : Type := World -> A * World * list Effect.

#[global] Instance M_ret : MRet M := λ A a w, (a, w, []).

#[global] Instance M_bind : MBind M := λ A B k m w,
  let '(a, w1, out1) := m w in
  let '(b, w2, out2) := k a w1 in
  (b, w2, out1 ++ out2).

Definition get_world : M World := λ w, (w, w, []).
Definition modify (f : World -> World) : M unit := λ w, (tt, f w, []).
Definition emit (e : Effect) : M unit := λ w, (tt, w, [e]).

Definition result_of {A : Type} (r : A * World * list Effect) : A := r.1.1.
Definition world_of {A : Type} (r : A * World * list Effect) : World := r.1.2.
Definition effects_of {A : Type} (r : A * World * list Effect) : list Effect := r.2.

(** *** [storage]: get, set, delete

    Modelled from the spec: [LocalStorage] is the library's in-memory
    key-value store (spec 4.1: [get] gives the stored state or nothing,
    [delete] removes it and is no error when absent); [set] overwrites, and
    the store keeps the object it is given, not a copy. *)
Definition storage_get (key : string) : M (option loc) :=
  w ← get_world; mret (storage w !! key).

Definition storage_set (key : string) (l : loc) : M unit :=
  modify (λ w, mkWorld (heap w) (<[key := l]> (storage w)) (conversationReferences w)).

Definition storage_delete (key : string) : M unit :=
  modify (λ w, mkWorld (heap w) (delete key (storage w)) (conversationReferences w)).

(** *** Counter records on the heap *)

(** [{ count: n }]: a new object at an address not in use. *)
Definition new_object (s : ConversationState) : M loc := λ w,
  let l := fresh (dom (heap w)) in
  (l, mkWorld (<[l := s]> (heap w)) (storage w) (conversationReferences w), []).

(** [state.count], read through the reference. *)
Definition read_state (l : loc) : M ConversationState :=
  w ← get_world; mret (default (mkState 0) (heap w !! l)).

(** [state.count++], written through the reference. *)
Definition incr_count (l : loc) : M unit :=
  modify (λ w, mkWorld (alter (λ s, mkState (count s + 1)) l (heap w))
                       (storage w) (conversationReferences w)).

(** *** [conversationReferences]: set, get, keys, entries *)
Definition refs_set (key : string) (r : ConversationReference) : M unit :=
  modify (λ w, mkWorld (heap w) (storage w) (JsMap.set key r (conversationReferences w))).

(** [Map.get] compares keys without coercion; every key is a string, so a
    key of another type finds nothing. *)
Definition lookup_ref (w : World) (key : jsval) : option ConversationReference :=
  match key with
  | JStr k => JsMap.get k (conversationReferences w)
  | _ => None
  end.

Definition refs_get (key : jsval) : M (option ConversationReference) :=
  w ← get_world; mret (lookup_ref w key).

Definition refs_keys : M (list string) :=
  w ← get_world; mret (JsMap.keys (conversationReferences w)).

Definition refs_entries : M (list (string * ConversationReference)) :=
  w ← get_world; mret (JsMap.entries (conversationReferences w)).

Definition context_send (text : string) : M unit := emit (ContextSend text).

(** ** JSON text of the two small objects the dispatcher serialises *)

Definition dquote : string := String "034"%char EmptyString.

(** A JSON string literal, for text that needs no escaping. *)
Definition json_string (s : string) : string := dquote +:+ s +:+ dquote.

(** [JSON.stringify(state)] for a [ConversationState]. *)
Definition JSON_stringify_state (s : ConversationState) : string :=
  "{" +:+ json_string "count" +:+ ":" +:+ pretty (count s) +:+ "}".

(** [JSON.stringify({ nodeversion, sdkversion })]. *)
Definition JSON_stringify_runtime (nodeversion sdkversion : string) : string :=
  "{" +:+ json_string "nodeversion" +:+ ":" +:+ json_string nodeversion +:+ "," +:+
  json_string "sdkversion" +:+ ":" +:+ json_string sdkversion +:+ "}".

Ltac unfold_m :=
  unfold storage_get, storage_set, storage_delete, new_object, read_state,
    incr_count, refs_set, refs_get, refs_keys, refs_entries, context_send,
    get_world, modify, emit, mbind, M_bind, mret, M_ret,
    result_of, world_of, effects_of in *.

(** ** The handlers of [src/app.ts] *)

Section App.

(** What the program imports or reads from its environment:
    [stripMentionsText] of the messaging library, [JSON.stringify] of a whole
    activity, [process.version]. *)
Variable stripMentionsText : Activity -> string.
Variable JSON_stringify_activity : Activity -> string.
Variable process_version : string.
(** [app.http.send]: resolves to the sent activity or rejects with an
    error. *)
Variable http_send : ActivityParams -> ConversationReference -> Completion SentActivity.

Definition app_http_send (params : ActivityParams) (target : ConversationReference)
  : M (Completion SentActivity) :=
  emit (HttpSend params target);; mret (http_send params target).

(** [app.on("install.add", ...)] (the two [console.log] lines write to
    the process log only). *)
Definition on_install_add (context : Context) : M unit :=
  refs_set (conv_id (activity_conversation (activity context))) (ref context).

(** [getConversationState] *)
Definition getConversationState (conversationId : string) : M loc :=
  state ← storage_get conversationId;
  match state with
  | Some l => mret l
  | None =>
      l ← new_object (mkState 0);
      storage_set conversationId l;;
      mret l
  end.

(** [app.on("message", ...)] *)
Definition on_message (context : Context) : M unit :=
  let activity := activity context in
  let conversationId := conv_id (activity_conversation activity) in
  refs_set conversationId (ref context);;
  let text := stripMentionsText activity in
  if String.eqb text "/reset" then
    storage_delete conversationId;;
    context_send "Ok I've deleted the current conversation state."
  else if String.eqb text "/count" then
    state ← getConversationState conversationId;
    s ← read_state state;
    context_send ("The count is " +:+ pretty (count s))
  else if String.eqb text "/diag" then
    context_send (JSON_stringify_activity activity)
  else if String.eqb text "/state" then
    state ← getConversationState conversationId;
    s ← read_state state;
    context_send (JSON_stringify_state s)
  else if String.eqb text "/runtime" then
    context_send (JSON_stringify_runtime process_version "2.0.0")
  else
    state ← getConversationState conversationId;
    incr_count state;;
    s ← read_state state;
    context_send ("[" +:+ pretty (count s) +:+ "] you said: " +:+ text).

(** *** Inbound events and their runs *)
Inductive Event : Type :=
| InstallAdd (context : Context)
| MessageEvent (context : Context).

Definition event_context (e : Event) : Context :=
  match e with
  | InstallAdd c | MessageEvent c => c
  end.

Definition event_conversation (e : Event) : string :=
  conv_id (activity_conversation (activity (event_context e))).

Definition handle (e : Event) : M unit :=
  match e with
  | InstallAdd c => on_install_add c
  | MessageEvent c => on_message c
  end.

Fixpoint run (events : list Event) : M unit :=
  match events with
  | [] => mret tt
  | e :: rest => handle e;; run rest
  end.

(** *** [POST /api/notify] *)

(** The callback of [mentions.map]: the template literal of [text] reads
    [m.name] and converts it to a string, either of which may throw. *)
Definition mention_entity (m : jsval) : Completion MentionEntity :=
  match get_property m "name" with
  | Throw e => Throw e
  | Normal name_for_text =>
      match ToString name_for_text with
      | Throw e => Throw e
      | Normal shown =>
          match get_property m "id" with
          | Throw e => Throw e
          | Normal id =>
              match get_property m "name" with
              | Throw e => Throw e
              | Normal name =>
                  Normal (mkMention "mention" ("<at>" +:+ shown +:+ "</at>") id name)
              end
          end
      end
  end.

Definition Array_isArray (v : jsval) : bool :=
  match v with
  | JArr _ => true
  | _ => false
  end.

Definition array_items (v : jsval) : list jsval :=
  match v with
  | JArr items => items
  | _ => []
  end.

(** [{ ...ref, conversation: { ...ref.conversation,
       id: `${ref.conversation.id};messageid=${replyToId}` } }]; the template
    literal converts [replyToId] to a string, which may throw. *)
Definition threadRef (ref : ConversationReference) (replyToId : jsval)
  : Completion ConversationReference :=
  match ToString replyToId with
  | Throw e => Throw e
  | Normal shown =>
      Normal (mkRef (mkAccount (conv_id (conversation ref) +:+ ";messageid=" +:+ shown)
                               (conversationType (conversation ref))
                               (conv_rest (conversation ref)))
                    (serviceUrl ref)
                    (ref_rest ref))
  end.

(** [res.json({ status: "sent", activityId: result.id })] *)
Definition sent_response (result : SentActivity) : Response :=
  mkResponse 200 (SentBody "sent" (sent_id result)).

(** [activityParams.entities = es].  For a string message the payload is
    the object [toActivityParams] made; a message that is itself an object or
    an array is passed through and takes the property; a number or a boolean
    is passed through as the primitive it is, and the assignment throws (the
    module runs in strict mode). *)
Definition set_entities (activityParams : ActivityParams) (es : list MentionEntity)
  : Completion ActivityParams :=
  match params_from activityParams with
  | JNum n =>
      Throw (TypeError ("Cannot create property 'entities' on number '"
                        +:+ Number_toString n +:+ "'"))
  | JBool b =>
      Throw (TypeError ("Cannot create property 'entities' on boolean '"
                        +:+ (if b then "true" else "false") +:+ "'"))
  | JNull => Throw (TypeError "Cannot set properties of null (setting 'entities')")
  | JUndefined =>
      Throw (TypeError "Cannot set properties of undefined (setting 'entities')")
  | JStr _ | JArr _ | JObj _ =>
      Normal (mkParams (params_from activityParams) (Some es))
  end.

(** [toActivityParams(message)] followed by the block that sets
    [activityParams.entities] when [mentions] is a non-empty array (the map
    is evaluated before the assignment). *)
Definition build_params (message mentions : jsval) : Completion ActivityParams :=
  let activityParams := toActivityParams message in
  if truthy mentions && Array_isArray mentions
     && (0 <? length (array_items mentions))%nat
  then
    match map_completion mention_entity (array_items mentions) with
    | Throw e => Throw e
    | Normal es => set_entities activityParams es
    end
  else Normal activityParams.

(** The body of the [try] block. *)
Definition notify_try (ref : ConversationReference) (message replyToId mentions : jsval)
  : M (Completion Response) :=
  match build_params message mentions with
  | Throw e => mret (Throw e)
  | Normal activityParams =>
      if truthy replyToId then
        match threadRef ref replyToId with
        | Throw e => mret (Throw e)
        | Normal threadRef =>
            result ← app_http_send activityParams threadRef;
            match result with
            | Throw e => mret (Throw e)
            | Normal result => mret (Normal (sent_response result))
            end
        end
      else
        result ← app_http_send activityParams ref;
        match result with
        | Throw e => mret (Throw e)
        | Normal result => mret (Normal (sent_response result))
        end
  end.

(** [const { k } = req.body || {}] *)
Definition destructure (req_body : jsval) (k : string) : jsval :=
  field (js_or req_body (JObj [])) k.

Definition post_api_notify (req_body : jsval) : M Response :=
  let conversationId := destructure req_body "conversationId" in
  let message := destructure req_body "message" in
  let replyToId := destructure req_body "replyToId" in
  let mentions := destructure req_body "mentions" in
  if negb (truthy conversationId) || negb (truthy message) then
    mret (mkResponse 400 (ErrorBody (JStr "conversationId and message are required")))
  else
    ref ← refs_get conversationId;
    match ref with
    | None =>
        known ← refs_keys;
        mret (mkResponse 404 (NotFoundBody
          "Conversation not found. The bot must receive a message from this conversation first."
          known))
    | Some ref =>
        outcome ← notify_try ref message replyToId mentions;
        match outcome with
        | Normal res => mret res
        | Throw err =>
            mret (mkResponse 500
                    (ErrorBody (js_or (error_message err) (JStr "Failed to send message"))))
        end
    end.

(** *** [GET /api/conversations] *)
Definition get_api_conversations : M (list ConversationSummary) :=
  es ← refs_entries;
  mret (map (λ '(id, ref),
               mkSummary id (conversationType (conversation ref)) (serviceUrl ref)) es).

(** ** What can be observed of the two tables *)

(** The record [storage] holds for conversation [c], read through the
    stored reference. *)
Definition stored_state (w : World) (c : string) : option ConversationState :=
  l ← storage w !! c; heap w !! l.

Definition stored_count (w : World) (c : string) : option Z :=
  count <$> stored_state w c.

(** The count a fetch-or-init would find: the stored one, 0 for a
    conversation without a record. *)
Definition current_count (w : World) (c : string) : Z :=
  default 0%Z (stored_count w c).

(** The whole ConversationStateStore: which conversations have a record,
    and the record of each. *)
Definition store_view (w : World) : gmap string ConversationState :=
  omap (λ l, heap w !! l) (storage w).

Definition cached (w : World) (c : string) : option ConversationReference :=
  JsMap.get c (conversationReferences w).

(** The five slash-commands of the dispatch table. *)
Definition commands : list string :=
  ["/reset"; "/count"; "/diag"; "/state"; "/runtime"].

Definition is_command (text : string) : bool :=
  existsb (String.eqb text) commands.

(** The latest event of a run that concerns conversation [c]. *)
Fixpoint latest_for (c : string) (events : list Event) : option Event :=
  match events with
  | [] => None
  | e :: rest =>
      match latest_for c rest with
      | Some e' => Some e'
      | None => if String.eqb (event_conversation e) c then Some e else None
      end
  end.

(** The request passes the validation at the head of [POST /api/notify]. *)
Definition validated (req_body : jsval) : bool :=
  truthy (destructure req_body "conversationId")
  && truthy (destructure req_body "message").

(** Building the mention entities succeeds on every item of [mentions]:
    none is [null] or [undefined], and the [name] of each converts to a
    string. *)
Definition mention_ok (m : jsval) : bool :=
  negb (nullish m)
  && match ToString (field m "name") with
     | Normal _ => true
     | Throw _ => false
     end.

Definition mentions_ok (mentions : jsval) : bool :=
  forallb mention_ok (array_items mentions).

(** The reference the two branches of the [try] block send against. *)
Definition reply_target (ref : ConversationReference) (replyToId : jsval)
  : Completion ConversationReference :=
  if truthy replyToId then threadRef ref replyToId else Normal ref.

(** The response that follows the send: [res.json] after a sent activity,
    the [catch] branch after a throw. *)
Definition failure_response (err : JsError) : Response :=
  mkResponse 500 (ErrorBody (js_or (error_message err) (JStr "Failed to send message"))).

Definition respond (outcome : Completion SentActivity) : Response :=
  match outcome with
  | Normal result => sent_response result
  | Throw err => failure_response err
  end.

(** ** Invariant of the process state

    Every stored reference points to an allocated record, no two
    conversations share one, and the registry has no repeated key. *)
Record wf (w : World) : Prop := mk_wf {
  wf_allocated : ∀ c l, storage w !! c = Some l → is_Some (heap w !! l);
  wf_separate : ∀ c1 c2 l,
    storage w !! c1 = Some l → storage w !! c2 = Some l → c1 = c2;
  wf_unique_keys : NoDup (JsMap.keys (conversationReferences w));
}.

(** The states the process can be in: it starts from [init_world] and only
    the four handlers touch the tables. *)
Inductive reachable : World → Prop :=
| reachable_init : reachable init_world
| reachable_event w e : reachable w → reachable (world_of (handle e w))
| reachable_notify w req_body :
    reachable w → reachable (world_of (post_api_notify req_body w))
| reachable_list w : reachable w → reachable (world_of (get_api_conversations w)).

(** ** Equations of the handlers *)

Lemma is_command_false (text : string) :
  is_command text = false →
  String.eqb text "/reset" = false ∧ String.eqb text "/count" = false ∧
  String.eqb text "/diag" = false ∧ String.eqb text "/state" = false ∧
  String.eqb text "/runtime" = false.
Proof.
  unfold is_command, commands. simpl. intros H.
  repeat (apply orb_false_elim in H as [? H]). by repeat split.
Qed.

Lemma getConversationState_stored (c : string) (l : loc) (w : World) :
  storage w !! c = Some l → getConversationState c w = (l, w, []).
Proof. intros H. unfold getConversationState. unfold_m. by rewrite H. Qed.

Lemma getConversationState_fresh (c : string) (w : World) :
  storage w !! c = None →
  getConversationState c w =
    (fresh (dom (heap w)),
     mkWorld (<[fresh (dom (heap w)) := mkState 0]> (heap w))
             (<[c := fresh (dom (heap w))]> (storage w))
             (conversationReferences w),
     []).
Proof. intros H. unfold getConversationState. unfold_m. by rewrite H. Qed.

Lemma getConversationState_effects (c : string) (w : World) :
  effects_of (getConversationState c w) = [].
Proof.
  destruct (storage w !! c) as [l|] eqn:E.
  - by rewrite (getConversationState_stored _ _ _ E).
  - by rewrite (getConversationState_fresh _ _ E).
Qed.

(** The world once the handler has refreshed the cached reference. *)
Definition with_ref (context : Context) (w : World) : World :=
  mkWorld (heap w) (storage w)
          (JsMap.set (conv_id (activity_conversation (activity context))) (ref context)
                     (conversationReferences w)).

Lemma on_install_add_eq (context : Context) (w : World) :
  on_install_add context w = (tt, with_ref context w, []).
Proof. reflexivity. Qed.

Lemma on_message_reset (context : Context) (w : World) :
  stripMentionsText (activity context) = "/reset" →
  on_message context w =
    (tt,
     mkWorld (heap w)
             (delete (conv_id (activity_conversation (activity context))) (storage w))
             (conversationReferences (with_ref context w)),
     [ContextSend "Ok I've deleted the current conversation state."]).
Proof. intros H. unfold on_message. rewrite H. reflexivity. Qed.

Lemma on_message_count (context : Context) (w : World) :
  stripMentionsText (activity context) = "/count" →
  on_message context w =
    let r := getConversationState (conv_id (activity_conversation (activity context)))
                                  (with_ref context w) in
    (tt, world_of r,
     [ContextSend ("The count is " +:+
        pretty (count (default (mkState 0) (heap (world_of r) !! result_of r))))]).
Proof.
  intros H. unfold on_message. rewrite H. simpl.
  pose proof (getConversationState_effects
                (conv_id (activity_conversation (activity context)))
                (with_ref context w)) as Hout.
  unfold_m. fold (with_ref context w).
  destruct (getConversationState _ (with_ref context w)) as [[l w1] out].
  simpl in *. by subst out.
Qed.

Lemma on_message_echo (context : Context) (w : World) :
  is_command (stripMentionsText (activity context)) = false →
  on_message context w =
    let r := getConversationState (conv_id (activity_conversation (activity context)))
                                  (with_ref context w) in
    let w2 := mkWorld (alter (λ s, mkState (count s + 1)) (result_of r) (heap (world_of r)))
                      (storage (world_of r))
                      (conversationReferences (world_of r)) in
    (tt, w2,
     [ContextSend ("[" +:+
        pretty (count (default (mkState 0) (heap w2 !! result_of r))) +:+
        "] you said: " +:+ stripMentionsText (activity context))]).
Proof.
  intros H. apply is_command_false in H as (H1 & H2 & H3 & H4 & H5).
  unfold on_message. rewrite H1, H2, H3, H4, H5.
  pose proof (getConversationState_effects
                (conv_id (activity_conversation (activity context)))
                (with_ref context w)) as Hout.
  unfold_m. fold (with_ref context w).
  destruct (getConversationState _ (with_ref context w)) as [[l w1] out].
  simpl in *. by subst out.
Qed.

(** ** The invariant holds in every reachable state *)

Lemma wf_init : wf init_world.
Proof.
  split; simpl.
  - intros c l H. by rewrite lookup_empty in H.
  - intros c1 c2 l H. by rewrite lookup_empty in H.
  - apply NoDup_nil_2.
Qed.

Lemma wf_with_ref (context : Context) (w : World) : wf w → wf (with_ref context w).
Proof.
  intros [Ha Hs Hk]. split; simpl; [done | done |].
  by apply JsMap.NoDup_keys_set.
Qed.

Lemma fresh_not_stored (w : World) (c : string) :
  wf w → storage w !! c ≠ Some (fresh (dom (heap w))).
Proof.
  intros Hwf H. apply (wf_allocated _ Hwf) in H.
  apply elem_of_dom in H. by apply is_fresh in H.
Qed.

Lemma wf_getConversationState (c : string) (w : World) :
  wf w → wf (world_of (getConversationState c w)).
Proof.
  intros Hwf. destruct (storage w !! c) as [l|] eqn:E.
  - by rewrite (getConversationState_stored _ _ _ E).
  - rewrite (getConversationState_fresh _ _ E). unfold world_of. simpl.
    set (l := fresh (dom (heap w))).
    split; simpl; [| |apply (wf_unique_keys _ Hwf)].
    + intros c' l'. rewrite lookup_insert. case_decide as Hc.
      * intros [= <-]. rewrite lookup_insert_eq. eauto.
      * intros H. apply (wf_allocated _ Hwf) in H as [s Hs].
        rewrite lookup_insert. case_decide; eauto.
    + intros c1 c2 l'. rewrite !lookup_insert.
      repeat case_decide; subst; try done.
      * intros [= <-] Hl. by apply fresh_not_stored in Hl.
      * intros Hl [= <-]. by apply fresh_not_stored in Hl.
      * apply (wf_separate _ Hwf).
Qed.

Lemma wf_incr_count (l : loc) (w : World) :
  wf w →
  wf (mkWorld (alter (λ s, mkState (count s + 1)) l (heap w)) (storage w)
              (conversationReferences w)).
Proof.
  intros [Ha Hs Hk]. split; simpl; [|done|done].
  intros c l' H. apply Ha in H as [s Hs'].
  rewrite lookup_alter. case_decide; subst; rewrite Hs'; simpl; eauto.
Qed.

Lemma wf_storage_delete (c : string) (w : World) :
  wf w → wf (mkWorld (heap w) (delete c (storage w)) (conversationReferences w)).
Proof.
  intros [Ha Hs Hk]. split; simpl; [| |done].
  - intros c' l [_ H]%lookup_delete_Some. eauto.
  - intros c1 c2 l [_ H1]%lookup_delete_Some [_ H2]%lookup_delete_Some. eauto.
Qed.

Lemma wf_on_message (context : Context) (w : World) :
  wf w → wf (world_of (on_message context w)).
Proof.
  intros Hwf. apply (wf_with_ref context) in Hwf.
  pose proof (wf_getConversationState
                (conv_id (activity_conversation (activity context))) _ Hwf) as Hget.
  unfold on_message.
  repeat match goal with
         | |- context [if String.eqb ?a ?b then _ else _] => destruct (String.eqb a b)
         end;
    unfold_m; fold (with_ref context w);
    try (destruct (getConversationState _ (with_ref context w)) as [[l w1] out]);
    simpl in *; try done.
  - exact (wf_storage_delete _ _ Hwf).
  - by apply wf_incr_count.
Qed.

Lemma post_api_notify_world (req_body : jsval) (w : World) :
  world_of (post_api_notify req_body w) = w.
Proof.
  unfold post_api_notify.
  destruct (negb _ || negb _); [done|].
  unfold_m. simpl.
  destruct (lookup_ref w _) as [cached_ref|]; [|done].
  unfold notify_try.
  destruct (build_params _ _) as [params|e]; [|done].
  destruct (truthy _).
  - destruct (threadRef _ _) as [target|e]; [|done].
    unfold app_http_send; unfold_m; simpl; by destruct (http_send _ _).
  - unfold app_http_send; unfold_m; simpl; by destruct (http_send _ _).
Qed.

Lemma wf_handle (e : Event) (w : World) : wf w → wf (world_of (handle e w)).
Proof.
  destruct e as [context|context]; simpl.
  - apply wf_with_ref.
  - apply wf_on_message.
Qed.

Lemma reachable_wf (w : World) : reachable w → wf w.
Proof.
  induction 1 as [|w e _ IH|w req_body _ IH|w _ IH].
  - apply wf_init.
  - by apply wf_handle.
  - by rewrite post_api_notify_world.
  - done.
Qed.

(** ** What [getConversationState] returns and leaves behind *)

Lemma getConversationState_returns_stored (c : string) (w : World) :
  storage (world_of (getConversationState c w)) !! c
  = Some (result_of (getConversationState c w)).
Proof.
  destruct (storage w !! c) as [l|] eqn:E.
  - by rewrite (getConversationState_stored _ _ _ E).
  - rewrite (getConversationState_fresh _ _ E). unfold world_of, result_of. simpl.
    apply lookup_insert_eq.
Qed.

Lemma getConversationState_refs (c : string) (w : World) :
  conversationReferences (world_of (getConversationState c w))
  = conversationReferences w.
Proof.
  destruct (storage w !! c) as [l|] eqn:E.
  - by rewrite (getConversationState_stored _ _ _ E).
  - by rewrite (getConversationState_fresh _ _ E).
Qed.

Lemma getConversationState_record (c : string) (w : World) :
  wf w →
  heap (world_of (getConversationState c w)) !! result_of (getConversationState c w)
  = Some (default (mkState 0) (stored_state w c)).
Proof.
  intros Hwf. unfold stored_state. destruct (storage w !! c) as [l|] eqn:E.
  - rewrite (getConversationState_stored _ _ _ E). unfold world_of, result_of. simpl.
    by destruct (wf_allocated _ Hwf _ _ E) as [s ->].
  - rewrite (getConversationState_fresh _ _ E). unfold world_of, result_of. simpl.
    apply lookup_insert_eq.
Qed.

Lemma getConversationState_keeps (c c' : string) (s : ConversationState) (w : World) :
  wf w →
  stored_state w c' = Some s →
  stored_state (world_of (getConversationState c w)) c' = Some s.
Proof.
  intros Hwf H. destruct (storage w !! c) as [l|] eqn:E.
  - by rewrite (getConversationState_stored _ _ _ E).
  - rewrite (getConversationState_fresh _ _ E).
    unfold stored_state, world_of in *. simpl.
    destruct (storage w !! c') as [l'|] eqn:E'; [|done]. simpl in H.
    rewrite lookup_insert_ne by congruence. rewrite E'. simpl.
    rewrite lookup_insert_ne; [done|].
    intros <-. by apply fresh_not_stored in E'.
Qed.

Lemma getConversationState_frame (c c' : string) (w : World) :
  wf w → c' ≠ c →
  stored_state (world_of (getConversationState c w)) c' = stored_state w c'.
Proof.
  intros Hwf Hne. destruct (storage w !! c) as [l|] eqn:E.
  - by rewrite (getConversationState_stored _ _ _ E).
  - rewrite (getConversationState_fresh _ _ E).
    unfold stored_state, world_of. simpl.
    rewrite lookup_insert_ne by done.
    destruct (storage w !! c') as [l'|] eqn:E'; [|done]. simpl.
    rewrite lookup_insert_ne; [done|].
    intros <-. by apply fresh_not_stored in E'.
Qed.

Lemma current_count_default (w : World) (c : string) :
  count (default (mkState 0) (stored_state w c)) = current_count w c.
Proof. unfold current_count, stored_count. by destruct (stored_state w c). Qed.

Lemma store_view_lookup (w : World) (c : string) :
  store_view w !! c = stored_state w c.
Proof. unfold store_view, stored_state. by rewrite lookup_omap. Qed.

(** ** The message dispatcher *)

(** In-place increment of the record a conversation's stored reference
    points to. *)
Lemma incremented_record (c : string) (l : loc) (s : ConversationState) (w : World) :
  storage w !! c = Some l →
  heap w !! l = Some s →
  stored_state (mkWorld (alter (λ s, mkState (count s + 1)) l (heap w)) (storage w)
                        (conversationReferences w)) c
  = Some (mkState (count s + 1)).
Proof.
  intros Hc Hl. unfold stored_state. simpl. rewrite Hc. simpl.
  by rewrite lookup_alter_eq, Hl.
Qed.

Lemma incremented_frame (c c' : string) (l : loc) (w : World) :
  wf w → storage w !! c = Some l → c' ≠ c →
  stored_state (mkWorld (alter (λ s, mkState (count s + 1)) l (heap w)) (storage w)
                        (conversationReferences w)) c'
  = stored_state w c'.
Proof.
  intros Hwf Hc Hne. unfold stored_state. simpl.
  destruct (storage w !! c') as [l'|] eqn:E'; [|done]. simpl.
  rewrite lookup_alter_ne; [done|].
  intros <-. apply Hne. by apply (wf_separate _ Hwf c' c l).
Qed.

(** C3. For every inbound message whose mention-stripped text is none of
    the five commands, the dispatcher fetches the conversation's state (a
    conversation without one counts from 0), leaves it stored with a count
    exactly 1 above the count before, and replies
    "[<new count>] you said: <text>"; no other conversation's state
    changes. *)
Theorem echo_increments_count (w : World) (context : Context) :
  reachable w →
  is_command (stripMentionsText (activity context)) = false →
  let c := conv_id (activity_conversation (activity context)) in
  let text := stripMentionsText (activity context) in
  let r := on_message context w in
  stored_count (world_of r) c = Some (current_count w c + 1)%Z ∧
  effects_of r
  = [ContextSend ("[" +:+ pretty (current_count w c + 1)%Z +:+ "] you said: " +:+ text)] ∧
  (∀ c', c' ≠ c → stored_state (world_of r) c' = stored_state w c').
Proof.
  intros Hreach Hcmd c text r. subst r.
  apply reachable_wf, (wf_with_ref context) in Hreach.
  rewrite <- !current_count_default.
  rewrite on_message_echo by done. cbv zeta. fold c.
  pose proof (getConversationState_returns_stored c (with_ref context w)) as Hst.
  pose proof (getConversationState_record c _ Hreach) as Hrec.
  pose proof (wf_getConversationState c _ Hreach) as Hwf'.
  destruct (getConversationState c (with_ref context w)) as [[l w1] out] eqn:E.
  unfold world_of, result_of, effects_of in *. simpl in *.
  change (stored_state (with_ref context w) c) with (stored_state w c) in Hrec.
  pose proof (incremented_record c l _ w1 Hst Hrec) as Hinc.
  split_and!.
  - unfold stored_count. by rewrite Hinc.
  - unfold stored_state in Hinc. simpl in Hinc. rewrite Hst in Hinc. simpl in Hinc.
    by rewrite Hinc.
  - intros c' Hne. rewrite (incremented_frame c c' l w1) by done.
    pose proof (getConversationState_frame c c' _ Hreach Hne) as Hfr.
    rewrite E in Hfr. exact Hfr.
Qed.

(** C4 (as amended). Handling "/count" changes no stored count: every
    conversation that had a state keeps it; when the conversation of the
    message already has a state, [storage] and the records are identical
    before and after; when it has none, a state with count 0 is created and
    stored for it, which is the only change to the store.  The reply reports
    the current count. *)
Theorem count_command_store (w : World) (context : Context) :
  reachable w →
  stripMentionsText (activity context) = "/count" →
  let c := conv_id (activity_conversation (activity context)) in
  let r := on_message context w in
  effects_of r = [ContextSend ("The count is " +:+ pretty (current_count w c))] ∧
  (∀ c' s, stored_state w c' = Some s → stored_state (world_of r) c' = Some s) ∧
  (is_Some (storage w !! c) →
     storage (world_of r) = storage w ∧ heap (world_of r) = heap w ∧
     store_view (world_of r) = store_view w) ∧
  (storage w !! c = None →
     store_view (world_of r) = <[c := mkState 0]> (store_view w)).
Proof.
  intros Hreach Htext c r. subst r.
  apply reachable_wf, (wf_with_ref context) in Hreach.
  rewrite <- current_count_default.
  rewrite on_message_count by done. cbv zeta. fold c.
  pose proof (getConversationState_record c _ Hreach) as Hrec.
  pose proof (λ c' s, getConversationState_keeps c c' s _ Hreach) as Hkeep.
  pose proof (λ c', getConversationState_frame c c' _ Hreach) as Hframe.
  change (stored_state (with_ref context w)) with (stored_state w) in *.
  destruct (storage w !! c) as [l|] eqn:Hl.
  - rewrite (getConversationState_stored c l (with_ref context w) Hl) in *.
    unfold world_of, result_of, effects_of in *. simpl in *.
    rewrite Hrec. split_and!; [done | done | done | done].
  - rewrite (getConversationState_fresh c (with_ref context w) Hl) in *.
    unfold world_of, result_of, effects_of in *. simpl in *.
    rewrite Hrec. split_and!; [done | done | by intros [? ?] |].
    intros _. apply map_eq. intros c'.
    rewrite store_view_lookup, lookup_insert. case_decide as Hc.
    + subst c'. unfold stored_state at 1. simpl.
      rewrite lookup_insert_eq. simpl. by rewrite lookup_insert_eq.
    + rewrite Hframe by done. by rewrite store_view_lookup.
Qed.

(** C5. Whatever the state before, handling "/reset" removes the
    conversation's state, changes no counter record and no other
    conversation's state, and replies with the confirmation text; a "/count"
    for the same conversation handled right after replies
    "The count is 0". *)
Theorem reset_then_count (w : World) (context1 context2 : Context) :
  stripMentionsText (activity context1) = "/reset" →
  stripMentionsText (activity context2) = "/count" →
  conv_id (activity_conversation (activity context2))
  = conv_id (activity_conversation (activity context1)) →
  let c := conv_id (activity_conversation (activity context1)) in
  let r1 := on_message context1 w in
  let r2 := on_message context2 (world_of r1) in
  stored_state (world_of r1) c = None ∧
  heap (world_of r1) = heap w ∧
  (∀ c', c' ≠ c → stored_state (world_of r1) c' = stored_state w c') ∧
  effects_of r1 = [ContextSend "Ok I've deleted the current conversation state."] ∧
  effects_of r2 = [ContextSend "The count is 0"].
Proof.
  intros Hreset Hcount Hsame c r1 r2. subst r1 r2.
  rewrite (on_message_reset context1 w Hreset).
  change (world_of (?a, ?b, ?o)) with b. change (effects_of (?a, ?b, ?o)) with o.
  fold c.
  set (w1 := mkWorld (heap w) (delete c (storage w))
                     (conversationReferences (with_ref context1 w))).
  split_and!.
  - unfold stored_state. simpl. by rewrite lookup_delete_eq.
  - done.
  - intros c' Hne. unfold stored_state. simpl. by rewrite lookup_delete_ne.
  - done.
  - rewrite (on_message_count context2 w1 Hcount). cbv zeta. rewrite Hsame. fold c.
    assert (storage (with_ref context2 w1) !! c = None) as Hl
      by apply lookup_delete_eq.
    rewrite (getConversationState_fresh c _ Hl).
    unfold effects_of, world_of, result_of. simpl. by rewrite lookup_insert_eq.
Qed.

Lemma echo_stored_count (w : World) (context : Context) :
  wf w →
  is_command (stripMentionsText (activity context)) = false →
  stored_count (world_of (on_message context w))
               (conv_id (activity_conversation (activity context)))
  = Some (current_count w (conv_id (activity_conversation (activity context))) + 1)%Z.
Proof.
  intros Hwf Hcmd. apply (wf_with_ref context) in Hwf.
  set (c := conv_id (activity_conversation (activity context))).
  rewrite <- current_count_default.
  rewrite on_message_echo by done. cbv zeta. fold c.
  pose proof (getConversationState_returns_stored c (with_ref context w)) as Hst.
  pose proof (getConversationState_record c _ Hwf) as Hrec.
  change (stored_state (with_ref context w) c) with (stored_state w c) in Hrec.
  change (world_of (?a, ?b, ?o)) with b.
  unfold stored_count. by rewrite (incremented_record c _ _ _ Hst Hrec).
Qed.

Lemma count_reply (w : World) (context : Context) :
  wf w →
  stripMentionsText (activity context) = "/count" →
  effects_of (on_message context w)
  = [ContextSend ("The count is " +:+
       pretty (current_count w (conv_id (activity_conversation (activity context)))))].
Proof.
  intros Hwf Htext. apply (wf_with_ref context) in Hwf.
  rewrite <- current_count_default.
  rewrite on_message_count by done. cbv zeta.
  rewrite (getConversationState_record _ _ Hwf). done.
Qed.

(** C9. The echo branch increments the count in place, in the very
    record [storage] holds: the reference [getConversationState] returns is
    the one stored for the conversation, the handler's final [storage] is the
    one [getConversationState] left (no write to it follows the increment),
    and its final records are those with the count behind that reference
    raised by 1.  Hence a "/count" for the same conversation handled right
    after an echo reports the incremented value. *)
Theorem echo_mutates_stored_record (w : World) (context1 context2 : Context) :
  reachable w →
  is_command (stripMentionsText (activity context1)) = false →
  stripMentionsText (activity context2) = "/count" →
  conv_id (activity_conversation (activity context2))
  = conv_id (activity_conversation (activity context1)) →
  let c := conv_id (activity_conversation (activity context1)) in
  let g := getConversationState c (with_ref context1 w) in
  let r1 := on_message context1 w in
  let r2 := on_message context2 (world_of r1) in
  storage (world_of g) !! c = Some (result_of g) ∧
  storage (world_of r1) = storage (world_of g) ∧
  heap (world_of r1)
  = alter (λ s, mkState (count s + 1)) (result_of g) (heap (world_of g)) ∧
  effects_of r2 = [ContextSend ("The count is " +:+ pretty (current_count w c + 1)%Z)].
Proof.
  intros Hreach Hcmd Hcount Hsame c g r1 r2. subst g r1 r2.
  apply reachable_wf in Hreach.
  split_and!.
  - apply getConversationState_returns_stored.
  - by rewrite on_message_echo.
  - by rewrite on_message_echo.
  - rewrite count_reply by (done || by apply wf_on_message).
    rewrite Hsame. fold c. unfold current_count at 1.
    by rewrite echo_stored_count.
Qed.

(** ** The registry of conversation references *)

Lemma on_message_refs (context : Context) (w : World) :
  conversationReferences (world_of (on_message context w))
  = conversationReferences (with_ref context w).
Proof.
  pose proof (getConversationState_refs
                (conv_id (activity_conversation (activity context)))
                (with_ref context w)) as Hrefs.
  unfold on_message.
  repeat match goal with
         | |- context [if String.eqb ?a ?b then _ else _] => destruct (String.eqb a b)
         end;
    unfold_m; fold (with_ref context w);
    try (destruct (getConversationState _ (with_ref context w)) as [[l w1] out]);
    simpl in *; done.
Qed.

Lemma handle_refs (e : Event) (w : World) :
  conversationReferences (world_of (handle e w))
  = JsMap.set (event_conversation e) (ref (event_context e)) (conversationReferences w).
Proof.
  destruct e as [context|context]; simpl.
  - done.
  - by rewrite on_message_refs.
Qed.

Lemma run_cons_world (e : Event) (rest : list Event) (w : World) :
  world_of (run (e :: rest) w) = world_of (run rest (world_of (handle e w))).
Proof.
  simpl. unfold_m.
  destruct (handle e w) as [[u w1] out1]. simpl.
  by destruct (run rest w1) as [[u' w2] out2].
Qed.

Lemma run_cached_untouched (c : string) (events : list Event) (w : World) :
  latest_for c events = None →
  cached (world_of (run events w)) c = cached w c.
Proof.
  revert w. induction events as [|e rest IH]; intros w Hnone; [done|].
  simpl in Hnone. destruct (latest_for c rest) as [e'|] eqn:Hrest; [done|].
  destruct (String.eqb (event_conversation e) c) eqn:Hc; [done|].
  apply String.eqb_neq in Hc.
  rewrite run_cons_world, IH by done.
  unfold cached. rewrite handle_refs. by apply JsMap.get_set_ne.
Qed.

(** C2. After any run of inbound events (install or message), the
    registry entry of a conversation that occurs in the run is present and is
    the reference carried by the latest event for that conversation: each
    event overwrites the entry of its conversation, whatever it held. *)
Theorem registry_reflects_latest_event
    (w : World) (events : list Event) (c : string) (e : Event) :
  latest_for c events = Some e →
  event_conversation e = c ∧
  cached (world_of (run events w)) c = Some (ref (event_context e)).
Proof.
  revert w. induction events as [|e0 rest IH]; intros w Hlatest; [done|].
  simpl in Hlatest. rewrite run_cons_world.
  destruct (latest_for c rest) as [e'|] eqn:Hrest.
  - injection Hlatest as ->. by apply IH.
  - destruct (String.eqb (event_conversation e0) c) eqn:Hc; [|done].
    injection Hlatest as ->. apply String.eqb_eq in Hc. split; [done|].
    rewrite run_cached_untouched by done.
    unfold cached. rewrite handle_refs, Hc. apply JsMap.get_set_eq.
Qed.

(** ** The proactive notifier *)

Lemma notify_invalid (req_body : jsval) (w : World) :
  validated req_body = false →
  post_api_notify req_body w
  = (mkResponse 400 (ErrorBody (JStr "conversationId and message are required")), w, []).
Proof.
  unfold validated, post_api_notify. intros H.
  rewrite <- negb_andb, H. reflexivity.
Qed.

Lemma notify_unknown (req_body : jsval) (w : World) :
  validated req_body = true →
  lookup_ref w (destructure req_body "conversationId") = None →
  post_api_notify req_body w
  = (mkResponse 404 (NotFoundBody
       "Conversation not found. The bot must receive a message from this conversation first."
       (JsMap.keys (conversationReferences w))), w, []).
Proof.
  unfold validated, post_api_notify. intros H Hnone.
  rewrite <- negb_andb, H. unfold_m. simpl. by rewrite Hnone.
Qed.

Lemma notify_build_error (req_body : jsval) (w : World) (ref : ConversationReference)
    (e : JsError) :
  validated req_body = true →
  lookup_ref w (destructure req_body "conversationId") = Some ref →
  build_params (destructure req_body "message") (destructure req_body "mentions")
  = Throw e →
  post_api_notify req_body w = (failure_response e, w, []).
Proof.
  unfold validated, post_api_notify, notify_try. intros H Href Hbuild.
  rewrite <- negb_andb, H. unfold_m. simpl. by rewrite Href, Hbuild.
Qed.

Lemma notify_target_error (req_body : jsval) (w : World) (ref : ConversationReference)
    (params : ActivityParams) (e : JsError) :
  validated req_body = true →
  lookup_ref w (destructure req_body "conversationId") = Some ref →
  build_params (destructure req_body "message") (destructure req_body "mentions")
  = Normal params →
  reply_target ref (destructure req_body "replyToId") = Throw e →
  post_api_notify req_body w = (failure_response e, w, []).
Proof.
  unfold validated, post_api_notify, notify_try, reply_target.
  intros H Href Hbuild Htarget.
  rewrite <- negb_andb, H. unfold_m. simpl. rewrite Href, Hbuild.
  destruct (truthy (destructure req_body "replyToId")); [|done].
  by rewrite Htarget.
Qed.

Lemma notify_send (req_body : jsval) (w : World) (ref : ConversationReference)
    (params : ActivityParams) (target : ConversationReference) :
  validated req_body = true →
  lookup_ref w (destructure req_body "conversationId") = Some ref →
  build_params (destructure req_body "message") (destructure req_body "mentions")
  = Normal params →
  reply_target ref (destructure req_body "replyToId") = Normal target →
  post_api_notify req_body w
  = (respond (http_send params target), w, [HttpSend params target]).
Proof.
  unfold validated, post_api_notify, notify_try, reply_target.
  intros H Href Hbuild Htarget.
  rewrite <- negb_andb, H. unfold_m. simpl. rewrite Href, Hbuild.
  destruct (truthy (destructure req_body "replyToId")).
  - rewrite Htarget. unfold app_http_send; unfold_m; simpl.
    by destruct (http_send _ _).
  - injection Htarget as <-. unfold app_http_send; unfold_m; simpl.
    by destruct (http_send _ _).
Qed.

(** Whenever the handler calls the send primitive, it calls it once and
    answers with what follows from that call's outcome. *)
Lemma post_api_notify_sends (req_body : jsval) (w : World)
    (params : ActivityParams) (target : ConversationReference) :
  HttpSend params target ∈ effects_of (post_api_notify req_body w) →
  post_api_notify req_body w
  = (respond (http_send params target), w, [HttpSend params target]).
Proof.
  destruct (validated req_body) eqn:Hv.
  2: { rewrite notify_invalid by done. by intros ?%elem_of_nil. }
  destruct (lookup_ref w (destructure req_body "conversationId")) as [ref|] eqn:Href.
  2: { rewrite notify_unknown by done. by intros ?%elem_of_nil. }
  destruct (build_params (destructure req_body "message")
                         (destructure req_body "mentions")) as [p|e] eqn:Hbuild.
  2: { rewrite (notify_build_error _ _ _ _ Hv Href Hbuild). by intros ?%elem_of_nil. }
  destruct (reply_target ref (destructure req_body "replyToId")) as [t|e] eqn:Htarget.
  2: { rewrite (notify_target_error _ _ _ _ _ Hv Href Hbuild Htarget).
       by intros ?%elem_of_nil. }
  rewrite (notify_send _ _ _ _ _ Hv Href Hbuild Htarget).
  unfold effects_of. simpl. intros Hin%list_elem_of_singleton.
  by injection Hin as -> ->.
Qed.

Lemma mention_entity_ok (m : jsval) :
  mention_ok m = true → ∃ entity, mention_entity m = Normal entity.
Proof.
  unfold mention_ok, mention_entity, get_property.
  intros [Hm Hname]%andb_true_iff.
  destruct m as [| |b|n|s|items|fields]; simpl in *; try done; eauto.
  destruct (ToString (lookup_field "name" fields)) as [shown|e]; [eauto | done].
Qed.

Lemma map_completion_ok (items : list jsval) :
  forallb mention_ok items = true →
  ∃ es, map_completion mention_entity items = Normal es.
Proof.
  induction items as [|m rest IH]; simpl; [eauto|].
  intros [Hm Hrest]%andb_true_iff. destruct (IH Hrest) as [es ->].
  destruct (mention_entity_ok m Hm) as [entity ->]. eauto.
Qed.

Lemma build_params_ok (text : string) (mentions : jsval) :
  mentions_ok mentions = true →
  ∃ params, build_params (JStr text) mentions = Normal params
            ∧ params_from params = JStr text.
Proof.
  intros Hok. unfold build_params.
  destruct (truthy mentions && Array_isArray mentions && _); [|eauto].
  destruct (map_completion_ok _ Hok) as [es ->]. simpl. eauto.
Qed.

(** C1 (as amended). For every cached reference and every request that
    passes validation with a string message and carries a non-empty string
    [replyToId] (and each of whose [mentions] can be built: none is null or
    undefined and the name of each converts to a string), the message is
    sent exactly once, against a copy of the cached reference whose
    conversation identifier is the original one followed by ";messageid="
    and the [replyToId], every other field copied; the tables, and so the
    cached entry, are left as they were. *)
Theorem notify_thread_reply (w : World) (req_body : jsval) (m r : string)
    (ref : ConversationReference) :
  validated req_body = true →
  destructure req_body "message" = JStr m →
  destructure req_body "replyToId" = JStr r →
  r ≠ EmptyString →
  mentions_ok (destructure req_body "mentions") = true →
  lookup_ref w (destructure req_body "conversationId") = Some ref →
  let derived :=
    mkRef (mkAccount (conv_id (conversation ref) +:+ ";messageid=" +:+ r)
                     (conversationType (conversation ref))
                     (conv_rest (conversation ref)))
          (serviceUrl ref) (ref_rest ref) in
  ∃ params,
    params_from params = JStr m ∧
    post_api_notify req_body w
    = (respond (http_send params derived), w, [HttpSend params derived]) ∧
    lookup_ref (world_of (post_api_notify req_body w))
               (destructure req_body "conversationId") = Some ref.
Proof.
  intros Hv Hm Hr Hne Hok Href derived.
  destruct (build_params_ok m _ Hok) as (params & Hbuild & Hfrom).
  exists params. rewrite <- Hm in Hbuild.
  assert (reply_target ref (destructure req_body "replyToId") = Normal derived)
    as Htarget.
  { unfold reply_target. rewrite Hr. simpl.
    destruct r as [|a r']; [done|]. reflexivity. }
  pose proof (notify_send _ _ _ _ _ Hv Href Hbuild Htarget) as Hsend.
  split_and!; [done | done |]. by rewrite post_api_notify_world.
Qed.

(** C6 (as amended). For every request that passes validation
    ([conversationId] and [message] both truthy) and whose [conversationId]
    has no entry in the registry, the response is a 404 whose
    [knownConversations] is the list of the registry's keys (the identifiers
    with an entry, and only those), the send primitive is not called and the
    tables are unchanged. *)
Theorem notify_unknown_conversation (w : World) (req_body : jsval) :
  validated req_body = true →
  lookup_ref w (destructure req_body "conversationId") = None →
  let known := JsMap.keys (conversationReferences w) in
  post_api_notify req_body w
  = (mkResponse 404 (NotFoundBody
       "Conversation not found. The bot must receive a message from this conversation first."
       known), w, []) ∧
  (∀ k, k ∈ known ↔ is_Some (cached w k)).
Proof.
  intros Hv Hnone known. split.
  - by apply notify_unknown.
  - intros k. apply JsMap.elem_of_keys.
Qed.

(** C7 (as amended). Whenever [POST /api/notify] calls the send primitive,
    it calls it exactly once (no retry).  If the call throws, the response is
    a 500 whose error field is the failure's message when that message is
    truthy, and the text "Failed to send message" otherwise; if it resolves,
    the response is a 200 with status "sent" and the sent activity's
    identifier. *)
Theorem notify_send_outcome (w : World) (req_body : jsval)
    (params : ActivityParams) (target : ConversationReference) :
  HttpSend params target ∈ effects_of (post_api_notify req_body w) →
  effects_of (post_api_notify req_body w) = [HttpSend params target] ∧
  (∀ err, http_send params target = Throw err →
     result_of (post_api_notify req_body w)
     = mkResponse 500 (ErrorBody (if truthy (error_message err)
                                  then error_message err
                                  else JStr "Failed to send message"))) ∧
  (∀ result, http_send params target = Normal result →
     result_of (post_api_notify req_body w)
     = mkResponse 200 (SentBody "sent" (sent_id result))).
Proof.
  intros Hin. rewrite (post_api_notify_sends _ _ _ _ Hin).
  split_and!; [done | |]; intros x Hx; by rewrite Hx.
Qed.

(** C8. A request whose [conversationId] or [message] is falsy, be it
    absent ([undefined]) or present as the empty string, [null], [false] or
    0, is answered with the 400 "conversationId and message are required";
    nothing is sent and the tables are unchanged. *)
Theorem notify_rejects_falsy_fields (w : World) (req_body : jsval) :
  truthy (destructure req_body "conversationId") = false
  ∨ truthy (destructure req_body "message") = false →
  post_api_notify req_body w
  = (mkResponse 400 (ErrorBody (JStr "conversationId and message are required")), w, []).
Proof.
  intros H. apply notify_invalid. unfold validated.
  destruct H as [-> | ->]; [done | apply andb_false_r].
Qed.

(** C10. When the send primitive throws an error whose [message] is absent
    ([undefined]) or empty, or falsy in any other way, the response is a 500
    whose error field is the fixed text "Failed to send message". *)
Theorem notify_failure_fallback (w : World) (req_body : jsval)
    (params : ActivityParams) (target : ConversationReference) (err : JsError) :
  HttpSend params target ∈ effects_of (post_api_notify req_body w) →
  http_send params target = Throw err →
  truthy (error_message err) = false →
  result_of (post_api_notify req_body w)
  = mkResponse 500 (ErrorBody (JStr "Failed to send message")).
Proof.
  intros Hin Hthrow Hfalsy. rewrite (post_api_notify_sends _ _ _ _ Hin), Hthrow.
  unfold result_of, respond, failure_response, js_or. simpl. by rewrite Hfalsy.
Qed.

End App.

(** ** Concrete runs

    A bot whose inbound texts carry no mention markup, with a send primitive
    that either resolves or rejects. *)
Module Sample.

Definition account (c : string) : ConversationAccount :=
  mkAccount c (Some "channel") [].

Definition reference (c url : string) : ConversationReference :=
  mkRef (account c) url [].

Definition inbound (c text url : string) : Context :=
  mkContext (mkActivity (account c) text []) (reference c url).

Definition strip : Activity → string := activity_text.
Definition stringify : Activity → string := λ _, "{}".
Definition version : string := "v20.11.0".

Definition send_ok : ActivityParams → ConversationReference → Completion SentActivity :=
  λ _ _, Normal (mkSent "1712345678901").

Definition send_fails (msg : jsval)
  : ActivityParams → ConversationReference → Completion SentActivity :=
  λ _ _, Throw (mkError msg).

Definition receive : Context → M unit := on_message strip stringify version.

(** The state after "hello" arrived on the new conversation "c1". *)
Definition after_hello : World :=
  world_of (handle strip stringify version
                   (MessageEvent (inbound "c1" "hello" "https://a.example")) init_world).

(** A registry that knows conversation "abc" only. *)
Definition knows_abc : World :=
  mkWorld ∅ ∅ [("abc", reference "abc" "https://a.example")].

Definition request (fields : list (string * jsval)) : jsval := JObj fields.

Lemma after_hello_reachable (send : ActivityParams → ConversationReference → Completion SentActivity) :
  reachable strip stringify version send after_hello.
Proof. apply reachable_event, reachable_init. Qed.

End Sample.

Lemma registry_reflects_latest_event_witness :
  cached (world_of (run Sample.strip Sample.stringify Sample.version
                        [InstallAdd (Sample.inbound "c1" "" "https://a.example");
                         MessageEvent (Sample.inbound "c2" "hi" "https://b.example");
                         MessageEvent (Sample.inbound "c1" "/count" "https://c.example")]
                        init_world)) "c1"
  = Some (Sample.reference "c1" "https://c.example").
Proof.
  exact (proj2 (registry_reflects_latest_event
                  Sample.strip Sample.stringify Sample.version init_world
                  [InstallAdd (Sample.inbound "c1" "" "https://a.example");
                   MessageEvent (Sample.inbound "c2" "hi" "https://b.example");
                   MessageEvent (Sample.inbound "c1" "/count" "https://c.example")]
                  "c1"
                  (MessageEvent (Sample.inbound "c1" "/count" "https://c.example"))
                  eq_refl)).
Defined.

Lemma echo_increments_count_witness :
  stored_count (world_of (Sample.receive (Sample.inbound "c1" "hello" "https://a.example")
                                         Sample.after_hello)) "c1"
  = Some 2%Z
  ∧ effects_of (Sample.receive (Sample.inbound "c1" "hello" "https://a.example")
                               Sample.after_hello)
    = [ContextSend "[2] you said: hello"].
Proof.
  pose proof (echo_increments_count
                Sample.strip Sample.stringify Sample.version Sample.send_ok
                Sample.after_hello (Sample.inbound "c1" "hello" "https://a.example")
                (Sample.after_hello_reachable Sample.send_ok) eq_refl) as H.
  cbv zeta in H. destruct H as (Hcount & Hreply & _).
  split; [exact Hcount | exact Hreply].
Defined.

Lemma count_command_store_witness :
  effects_of (Sample.receive (Sample.inbound "c1" "/count" "https://a.example")
                             Sample.after_hello)
  = [ContextSend "The count is 1"]
  ∧ stored_state (world_of (Sample.receive (Sample.inbound "c1" "/count" "https://a.example")
                                           Sample.after_hello)) "c1"
    = Some (mkState 1).
Proof.
  pose proof (count_command_store
                Sample.strip Sample.stringify Sample.version Sample.send_ok
                Sample.after_hello (Sample.inbound "c1" "/count" "https://a.example")
                (Sample.after_hello_reachable Sample.send_ok) eq_refl) as H.
  cbv zeta in H. destruct H as (Hreply & Hkeep & _).
  split; [exact Hreply | exact (Hkeep "c1" (mkState 1) eq_refl)].
Defined.

(** C4, as stated, fails on a conversation without a state: the first
    "/count" on the new conversation "c1" stores a record for it, so the set
    of stored conversation identifiers is not the one before. *)
Lemma count_command_creates_state :
  Sample.strip (activity (Sample.inbound "c1" "/count" "https://a.example")) = "/count"
  ∧ store_view init_world !! "c1" = None
  ∧ store_view (world_of (Sample.receive (Sample.inbound "c1" "/count" "https://a.example")
                                         init_world)) !! "c1"
    = Some (mkState 0)
  ∧ store_view (world_of (Sample.receive (Sample.inbound "c1" "/count" "https://a.example")
                                         init_world))
    ≠ store_view init_world.
Proof.
  assert (store_view (world_of (Sample.receive
            (Sample.inbound "c1" "/count" "https://a.example") init_world)) !! "c1"
          = Some (mkState 0)) as Hafter by (vm_compute; reflexivity).
  split_and!; [reflexivity | reflexivity | exact Hafter |].
  intros Heq. rewrite Heq in Hafter. discriminate Hafter.
Qed.

Lemma reset_then_count_witness :
  stored_state (world_of (Sample.receive (Sample.inbound "c1" "/reset" "https://a.example")
                                         Sample.after_hello)) "c1"
  = None
  ∧ effects_of (Sample.receive (Sample.inbound "c1" "/reset" "https://a.example")
                               Sample.after_hello)
    = [ContextSend "Ok I've deleted the current conversation state."]
  ∧ effects_of (Sample.receive (Sample.inbound "c1" "/count" "https://a.example")
                  (world_of (Sample.receive (Sample.inbound "c1" "/reset" "https://a.example")
                                            Sample.after_hello)))
    = [ContextSend "The count is 0"].
Proof.
  pose proof (reset_then_count
                Sample.strip Sample.stringify Sample.version Sample.after_hello
                (Sample.inbound "c1" "/reset" "https://a.example")
                (Sample.inbound "c1" "/count" "https://a.example")
                eq_refl eq_refl eq_refl) as H.
  cbv zeta in H. destruct H as (Hgone & _ & _ & Hreply1 & Hreply2).
  split_and!; [exact Hgone | exact Hreply1 | exact Hreply2].
Defined.

Lemma echo_mutates_stored_record_witness :
  effects_of (Sample.receive (Sample.inbound "c1" "/count" "https://a.example")
                (world_of (Sample.receive (Sample.inbound "c1" "hello" "https://a.example")
                                          Sample.after_hello)))
  = [ContextSend "The count is 2"].
Proof.
  pose proof (echo_mutates_stored_record
                Sample.strip Sample.stringify Sample.version Sample.send_ok
                Sample.after_hello
                (Sample.inbound "c1" "hello" "https://a.example")
                (Sample.inbound "c1" "/count" "https://a.example")
                (Sample.after_hello_reachable Sample.send_ok)
                eq_refl eq_refl eq_refl) as H.
  cbv zeta in H. destruct H as (_ & _ & _ & Hreply). exact Hreply.
Defined.

Lemma notify_thread_reply_witness :
  ∃ params,
    params_from params = JStr "hi"
    ∧ post_api_notify Sample.send_ok
        (Sample.request [("conversationId", JStr "abc"); ("message", JStr "hi");
                         ("replyToId", JStr "m1")])
        Sample.knows_abc
      = (mkResponse 200 (SentBody "sent" "1712345678901"),
         Sample.knows_abc,
         [HttpSend params
            (mkRef (mkAccount "abc;messageid=m1" (Some "channel") [])
                   "https://a.example" [])])
    ∧ cached Sample.knows_abc "abc" = Some (Sample.reference "abc" "https://a.example").
Proof.
  destruct (notify_thread_reply Sample.send_ok Sample.knows_abc
              (Sample.request [("conversationId", JStr "abc"); ("message", JStr "hi");
                               ("replyToId", JStr "m1")])
              "hi" "m1" (Sample.reference "abc" "https://a.example")
              eq_refl eq_refl eq_refl
              ltac:(discriminate)
              eq_refl eq_refl)
    as (params & Hfrom & Hsend & _).
  exists params. split_and!; [exact Hfrom | exact Hsend | reflexivity].
Defined.

(** C1, as stated, fails when the [replyToId] supplied is the empty string:
    the message goes out against the cached reference itself, whose
    conversation identifier is "abc" and not "abc;messageid=". *)
Lemma notify_empty_replyToId_unthreaded :
  destructure (Sample.request [("conversationId", JStr "abc"); ("message", JStr "hi");
                               ("replyToId", JStr EmptyString)]) "replyToId"
  = JStr EmptyString
  ∧ cached Sample.knows_abc "abc" = Some (Sample.reference "abc" "https://a.example")
  ∧ effects_of (post_api_notify Sample.send_ok
                  (Sample.request [("conversationId", JStr "abc"); ("message", JStr "hi");
                                   ("replyToId", JStr EmptyString)])
                  Sample.knows_abc)
    = [HttpSend (toActivityParams (JStr "hi")) (Sample.reference "abc" "https://a.example")]
  ∧ conv_id (conversation (Sample.reference "abc" "https://a.example")) = "abc"
  ∧ conv_id (conversation (Sample.reference "abc" "https://a.example"))
    ≠ "abc" +:+ ";messageid=" +:+ EmptyString.
Proof. split_and!; try reflexivity. discriminate. Qed.

Lemma notify_unknown_conversation_witness :
  post_api_notify Sample.send_ok
    (Sample.request [("conversationId", JStr "xyz"); ("message", JStr "hi")])
    Sample.knows_abc
  = (mkResponse 404 (NotFoundBody
       "Conversation not found. The bot must receive a message from this conversation first."
       ["abc"]),
     Sample.knows_abc, []).
Proof.
  exact (proj1 (notify_unknown_conversation Sample.send_ok Sample.knows_abc
                  (Sample.request [("conversationId", JStr "xyz"); ("message", JStr "hi")])
                  eq_refl eq_refl)).
Defined.

(** C6, as stated, fails on a request that names an unknown conversation
    but carries no message: validation comes first and answers 400. *)
Lemma notify_unknown_without_message :
  lookup_ref Sample.knows_abc
    (destructure (Sample.request [("conversationId", JStr "xyz")]) "conversationId")
  = None
  ∧ post_api_notify Sample.send_ok (Sample.request [("conversationId", JStr "xyz")])
                    Sample.knows_abc
    = (mkResponse 400 (ErrorBody (JStr "conversationId and message are required")),
       Sample.knows_abc, []).
Proof. split; reflexivity. Qed.

Lemma notify_send_outcome_witness :
  effects_of (post_api_notify (Sample.send_fails (JStr "Forbidden"))
                (Sample.request [("conversationId", JStr "abc"); ("message", JStr "hi")])
                Sample.knows_abc)
  = [HttpSend (toActivityParams (JStr "hi")) (Sample.reference "abc" "https://a.example")]
  ∧ result_of (post_api_notify (Sample.send_fails (JStr "Forbidden"))
                 (Sample.request [("conversationId", JStr "abc"); ("message", JStr "hi")])
                 Sample.knows_abc)
    = mkResponse 500 (ErrorBody (JStr "Forbidden")).
Proof.
  pose proof (notify_send_outcome (Sample.send_fails (JStr "Forbidden")) Sample.knows_abc
                (Sample.request [("conversationId", JStr "abc"); ("message", JStr "hi")])
                (toActivityParams (JStr "hi"))
                (Sample.reference "abc" "https://a.example")
                (list_elem_of_here _ _)) as (Honce & Hthrow & _).
  split; [exact Honce | exact (Hthrow (mkError (JStr "Forbidden")) eq_refl)].
Defined.

(** C7, as stated, fails when the send throws an error with an empty
    message (as [new Error()] has): the error field is the fallback text, not
    the failure's own message text. *)
Lemma notify_empty_failure_message :
  Sample.send_fails (JStr EmptyString) (toActivityParams (JStr "hi"))
                    (Sample.reference "abc" "https://a.example")
  = Throw (mkError (JStr EmptyString))
  ∧ post_api_notify (Sample.send_fails (JStr EmptyString))
      (Sample.request [("conversationId", JStr "abc"); ("message", JStr "hi")])
      Sample.knows_abc
    = (mkResponse 500 (ErrorBody (JStr "Failed to send message")),
       Sample.knows_abc,
       [HttpSend (toActivityParams (JStr "hi")) (Sample.reference "abc" "https://a.example")])
  ∧ ErrorBody (JStr "Failed to send message")
    ≠ ErrorBody (error_message (mkError (JStr EmptyString))).
Proof. split_and!; try reflexivity. discriminate. Qed.

Lemma notify_rejects_falsy_fields_witness :
  post_api_notify Sample.send_ok
    (Sample.request [("conversationId", JStr "abc"); ("message", JStr EmptyString)])
    Sample.knows_abc
  = (mkResponse 400 (ErrorBody (JStr "conversationId and message are required")),
     Sample.knows_abc, []).
Proof.
  exact (notify_rejects_falsy_fields Sample.send_ok Sample.knows_abc
           (Sample.request [("conversationId", JStr "abc"); ("message", JStr EmptyString)])
           (or_intror eq_refl)).
Defined.

Lemma notify_failure_fallback_witness :
  result_of (post_api_notify (Sample.send_fails JUndefined)
               (Sample.request [("conversationId", JStr "abc"); ("message", JStr "hi")])
               Sample.knows_abc)
  = mkResponse 500 (ErrorBody (JStr "Failed to send message")).
Proof.
  exact (notify_failure_fallback (Sample.send_fails JUndefined) Sample.knows_abc
           (Sample.request [("conversationId", JStr "abc"); ("message", JStr "hi")])
           (toActivityParams (JStr "hi"))
           (Sample.reference "abc" "https://a.example")
           (mkError JUndefined)
           (list_elem_of_here _ _) eq_refl eq_refl).
Defined.

(** ** Two more runs of the model *)

(** The scenario of the specification: two echoes, a reset, a count. *)
Lemma scenario_hello_hello_reset_count :
  effects_of (run Sample.strip Sample.stringify Sample.version
                  [MessageEvent (Sample.inbound "c1" "hello" "https://a.example");
                   MessageEvent (Sample.inbound "c1" "hello" "https://a.example");
                   MessageEvent (Sample.inbound "c1" "/reset" "https://a.example");
                   MessageEvent (Sample.inbound "c1" "/count" "https://a.example")]
                  init_world)
  = [ContextSend "[1] you said: hello";
     ContextSend "[2] you said: hello";
     ContextSend "Ok I've deleted the current conversation state.";
     ContextSend "The count is 0"].
Proof. vm_compute. reflexivity. Qed.

(** A [null] among the mentions makes the entity map throw inside the
    [try] block: the request is answered 500 and nothing is sent. *)
Lemma notify_null_mention :
  post_api_notify Sample.send_ok
    (Sample.request [("conversationId", JStr "abc"); ("message", JStr "hi");
                     ("mentions", JArr [JNull])])
    Sample.knows_abc
  = (mkResponse 500 (ErrorBody (JStr "Cannot read properties of null (reading 'name')")),
     Sample.knows_abc, []).
Proof. vm_compute. reflexivity. Qed.

(** * Further properties of the handlers

    The remaining branches of the dispatcher, the listing endpoint, the
    payload construction and the way the handlers compose. *)

Section Coverage.

Variable stripMentionsText : Activity -> string.
Variable JSON_stringify_activity : Activity -> string.
Variable process_version : string.
Variable http_send : ActivityParams -> ConversationReference -> Completion SentActivity.

Local Abbreviation on_message :=
  (on_message stripMentionsText JSON_stringify_activity process_version).
Local Abbreviation handle :=
  (handle stripMentionsText JSON_stringify_activity process_version).
Local Abbreviation run :=
  (run stripMentionsText JSON_stringify_activity process_version).
Local Abbreviation reachable :=
  (reachable stripMentionsText JSON_stringify_activity process_version http_send).
Local Abbreviation post_api_notify := (post_api_notify http_send).

(** ** The dispatcher, branch by branch *)

Lemma on_message_diag (context : Context) (w : World) :
  stripMentionsText (activity context) = "/diag" →
  on_message context w
  = (tt, with_ref context w, [ContextSend (JSON_stringify_activity (activity context))]).
Proof. intros H. unfold on_message. rewrite H. reflexivity. Qed.

Lemma on_message_runtime (context : Context) (w : World) :
  stripMentionsText (activity context) = "/runtime" →
  on_message context w
  = (tt, with_ref context w,
     [ContextSend (JSON_stringify_runtime process_version "2.0.0")]).
Proof. intros H. unfold on_message. rewrite H. reflexivity. Qed.

Lemma on_message_state (context : Context) (w : World) :
  stripMentionsText (activity context) = "/state" →
  on_message context w =
    let r := getConversationState (conv_id (activity_conversation (activity context)))
                                  (with_ref context w) in
    (tt, world_of r,
     [ContextSend (JSON_stringify_state
                     (default (mkState 0) (heap (world_of r) !! result_of r)))]).
Proof.
  intros H. unfold on_message. rewrite H. simpl.
  pose proof (getConversationState_effects
                (conv_id (activity_conversation (activity context)))
                (with_ref context w)) as Hout.
  unfold_m. fold (with_ref context w).
  destruct (getConversationState _ (with_ref context w)) as [[l w1] out].
  simpl in *. by subst out.
Qed.

Lemma text_cases (text : string) :
  text = "/reset" ∨ text = "/count" ∨ text = "/diag" ∨ text = "/state"
  ∨ text = "/runtime" ∨ is_command text = false.
Proof.
  unfold is_command, commands. simpl.
  destruct (String.eqb text "/reset") eqn:E1; [apply String.eqb_eq in E1; tauto|].
  destruct (String.eqb text "/count") eqn:E2; [apply String.eqb_eq in E2; tauto|].
  destruct (String.eqb text "/diag") eqn:E3; [apply String.eqb_eq in E3; tauto|].
  destruct (String.eqb text "/state") eqn:E4; [apply String.eqb_eq in E4; tauto|].
  destruct (String.eqb text "/runtime") eqn:E5; [apply String.eqb_eq in E5; tauto|].
  tauto.
Qed.

(** ** The store as a map from conversations to counters

    What the dispatch table does to the ConversationStateStore, written on the
    plain map from conversation identifiers to states. *)

(** Fetch-or-init: an existing state stays, a missing one becomes
    [{ count: 0 }]. *)
Definition getOrInit (c : string) (m : gmap string ConversationState)
  : gmap string ConversationState :=
  match m !! c with
  | Some _ => m
  | None => <[c := mkState 0]> m
  end.

Definition counter_step (text c : string) (m : gmap string ConversationState)
  : gmap string ConversationState :=
  if String.eqb text "/reset" then delete c m
  else if String.eqb text "/count" then getOrInit c m
  else if String.eqb text "/diag" then m
  else if String.eqb text "/state" then getOrInit c m
  else if String.eqb text "/runtime" then m
  else <[c := mkState (count (default (mkState 0) (m !! c)) + 1)]> m.

Definition counter_event (e : Event) (m : gmap string ConversationState)
  : gmap string ConversationState :=
  match e with
  | InstallAdd _ => m
  | MessageEvent context =>
      counter_step (stripMentionsText (activity context))
                   (conv_id (activity_conversation (activity context))) m
  end.

Lemma store_view_getConversationState (c : string) (w : World) :
  wf w →
  store_view (world_of (getConversationState c w)) = getOrInit c (store_view w).
Proof.
  intros Hwf. unfold getOrInit. rewrite store_view_lookup.
  destruct (storage w !! c) as [l|] eqn:Hl.
  - rewrite (getConversationState_stored c l w Hl).
    unfold stored_state. rewrite Hl. simpl.
    by destruct (wf_allocated _ Hwf _ _ Hl) as [s ->].
  - unfold stored_state at 1. rewrite Hl. simpl.
    apply map_eq. intros c'. rewrite store_view_lookup, lookup_insert.
    case_decide as Hc.
    + subst c'. unfold stored_state.
      rewrite getConversationState_returns_stored. simpl.
      rewrite (getConversationState_record c w Hwf).
      unfold stored_state. by rewrite Hl.
    + rewrite (getConversationState_frame c c' w Hwf) by done.
      by rewrite store_view_lookup.
Qed.

Lemma store_view_on_message (context : Context) (w : World) :
  wf w →
  store_view (world_of (on_message context w))
  = counter_step (stripMentionsText (activity context))
                 (conv_id (activity_conversation (activity context)))
                 (store_view w).
Proof.
  intros Hwf. apply (wf_with_ref context) in Hwf.
  set (c := conv_id (activity_conversation (activity context))).
  unfold counter_step.
  destruct (text_cases (stripMentionsText (activity context)))
    as [H | [H | [H | [H | [H | H]]]]].
  - rewrite (on_message_reset _ _ _ _ _ H), H. simpl.
    change (world_of (?a, ?b, ?o)) with b. fold c.
    apply map_eq. intros c'. rewrite store_view_lookup, lookup_delete.
    unfold stored_state. simpl. rewrite lookup_delete.
    case_decide; [done|]. by rewrite store_view_lookup.
  - rewrite (on_message_count _ _ _ _ _ H), H. simpl.
    change (world_of (?a, ?b, ?o)) with b. fold c.
    by rewrite store_view_getConversationState.
  - by rewrite (on_message_diag _ _ H), H.
  - rewrite (on_message_state _ _ H), H. simpl.
    change (world_of (?a, ?b, ?o)) with b. fold c.
    by rewrite store_view_getConversationState.
  - by rewrite (on_message_runtime _ _ H), H.
  - rewrite (on_message_echo _ _ _ _ _ H).
    apply is_command_false in H as (-> & -> & -> & -> & ->).
    cbv zeta. change (world_of (?a, ?b, ?o)) with b. fold c.
    pose proof (getConversationState_returns_stored c (with_ref context w)) as Hst.
    pose proof (getConversationState_record c _ Hwf) as Hrec.
    pose proof (wf_getConversationState c _ Hwf) as Hwf'.
    pose proof (λ c', getConversationState_frame c c' _ Hwf) as Hframe.
    change (stored_state (with_ref context w)) with (stored_state w) in *.
    apply map_eq. intros c'. rewrite store_view_lookup, lookup_insert.
    case_decide as Hc.
    + subst c'. rewrite (incremented_record c _ _ _ Hst Hrec).
      by rewrite store_view_lookup.
    + rewrite (incremented_frame c c' _ _ Hwf' Hst) by done.
      rewrite Hframe by done. by rewrite store_view_lookup.
Qed.

Lemma store_view_handle (e : Event) (w : World) :
  wf w → store_view (world_of (handle e w)) = counter_event e (store_view w).
Proof.
  destruct e as [context|context]; simpl; [done|]. apply store_view_on_message.
Qed.

Lemma counter_step_other (text c c' : string) (m : gmap string ConversationState) :
  c' ≠ c → counter_step text c m !! c' = m !! c'.
Proof.
  intros Hne. unfold counter_step, getOrInit.
  repeat match goal with
         | |- context [if String.eqb ?a ?b then _ else _] => destruct (String.eqb a b)
         end;
    try done; try (by apply lookup_delete_ne); try (by apply lookup_insert_ne).
  all: destruct (m !! c); [done | by apply lookup_insert_ne].
Qed.

Lemma run_cons_effects (e : Event) (rest : list Event) (w : World) :
  effects_of (run (e :: rest) w)
  = effects_of (handle e w) ++ effects_of (run rest (world_of (handle e w))).
Proof.
  simpl. unfold_m.
  destruct (handle e w) as [[u w1] out1]. simpl.
  by destruct (run rest w1) as [[u' w2] out2].
Qed.

Lemma reachable_run (events : list Event) (w : World) :
  reachable w → reachable (world_of (run events w)).
Proof.
  revert w. induction events as [|e rest IH]; intros w Hw; [done|].
  rewrite run_cons_world. by apply IH, reachable_event.
Qed.

(** X1. Seen through the conversations it holds, the store behaves as a
    plain map from conversation to counter: after any run of inbound events
    from a reachable state, the store is the one the dispatch table gives on
    that map, event after event (install events and "/diag", "/runtime" leave
    it alone, "/reset" removes the entry, "/count" and "/state" create a
    zero entry when there is none, any other text adds 1). *)
Theorem store_refines_counter_map (w : World) (events : list Event) :
  reachable w →
  store_view (world_of (run events w))
  = foldl (λ m e, counter_event e m) (store_view w) events.
Proof.
  revert w. induction events as [|e rest IH]; intros w Hw; [done|].
  rewrite run_cons_world. simpl.
  rewrite IH by (by apply reachable_event).
  by rewrite (store_view_handle e w (reachable_wf _ _ _ _ _ Hw)).
Qed.

(** X2. A message never changes the state of a conversation other than
    its own, whatever its text. *)
Theorem message_leaves_other_conversations (w : World) (context : Context) (c' : string) :
  reachable w →
  c' ≠ conv_id (activity_conversation (activity context)) →
  stored_state (world_of (on_message context w)) c' = stored_state w c'.
Proof.
  intros Hw Hne. apply reachable_wf in Hw.
  rewrite <- !store_view_lookup, store_view_on_message by done.
  by apply counter_step_other.
Qed.

Definition is_message (e : Event) : bool :=
  match e with
  | MessageEvent _ => true
  | InstallAdd _ => false
  end.

Lemma on_message_one_reply (context : Context) (w : World) :
  ∃ text, effects_of (on_message context w) = [ContextSend text].
Proof.
  destruct (text_cases (stripMentionsText (activity context)))
    as [H | [H | [H | [H | [H | H]]]]].
  - rewrite (on_message_reset _ _ _ _ _ H). eauto.
  - rewrite (on_message_count _ _ _ _ _ H). eauto.
  - rewrite (on_message_diag _ _ H). eauto.
  - rewrite (on_message_state _ _ H). eauto.
  - rewrite (on_message_runtime _ _ H). eauto.
  - rewrite (on_message_echo _ _ _ _ _ H). eauto.
Qed.

(** X3. Every message event is answered by exactly one reply on the
    inbound channel and an install event by none; the dispatcher never calls
    the proactive send primitive.  So the effects of a run are replies only,
    as many as the run has message events. *)
Theorem replies_match_messages (w : World) (events : list Event) :
  ∃ texts,
    effects_of (run events w) = map ContextSend texts
    ∧ length texts = length (List.filter is_message events).
Proof.
  revert w. induction events as [|e rest IH]; intros w.
  - by exists [].
  - rewrite run_cons_effects.
    destruct (IH (world_of (handle e w))) as (texts & -> & Hlen).
    destruct e as [context|context]; simpl.
    + by exists texts.
    + destruct (on_message_one_reply context w) as [text ->].
      exists (text :: texts). simpl. by rewrite Hlen.
Qed.

(** X4. "/state" replies with the JSON text of the conversation's state,
    ["{"count":n}"] for the current count n (0 for a conversation without
    a state, which gets one), and changes no stored state. *)
Theorem state_command_reply (w : World) (context : Context) :
  reachable w →
  stripMentionsText (activity context) = "/state" →
  let c := conv_id (activity_conversation (activity context)) in
  let r := on_message context w in
  effects_of r
  = [ContextSend ("{" +:+ dquote +:+ "count" +:+ dquote +:+ ":"
                  +:+ pretty (current_count w c) +:+ "}")] ∧
  stored_count (world_of r) c = Some (current_count w c) ∧
  (∀ c' s, stored_state w c' = Some s → stored_state (world_of r) c' = Some s).
Proof.
  intros Hw Htext c r. subst r.
  apply reachable_wf, (wf_with_ref context) in Hw.
  rewrite <- current_count_default.
  rewrite (on_message_state _ _ Htext). cbv zeta. fold c.
  pose proof (getConversationState_returns_stored c (with_ref context w)) as Hst.
  pose proof (getConversationState_record c _ Hw) as Hrec.
  change (stored_state (with_ref context w) c) with (stored_state w c) in Hrec.
  change (world_of (?a, ?b, ?o)) with b. change (effects_of (?a, ?b, ?o)) with o.
  split_and!.
  - by rewrite Hrec.
  - unfold stored_count, stored_state. rewrite Hst. simpl. by rewrite Hrec.
  - intros c' s Hs. by apply (getConversationState_keeps c c' s _ Hw).
Qed.

(** X5. "/diag" and "/runtime" never touch the state store: [storage] and
    every record are as before, so, unlike "/count" and "/state", they do
    not create a state for a conversation that has none.  They reply with
    the serialised activity, respectively the runtime descriptor. *)
Theorem diag_runtime_leave_state (w : World) (context : Context) :
  stripMentionsText (activity context) = "/diag"
  ∨ stripMentionsText (activity context) = "/runtime" →
  let r := on_message context w in
  storage (world_of r) = storage w ∧ heap (world_of r) = heap w ∧
  effects_of r
  = [ContextSend (if String.eqb (stripMentionsText (activity context)) "/diag"
                  then JSON_stringify_activity (activity context)
                  else JSON_stringify_runtime process_version "2.0.0")].
Proof.
  intros [H | H] r; subst r.
  - by rewrite (on_message_diag _ _ H), H.
  - by rewrite (on_message_runtime _ _ H), H.
Qed.

Lemma echo_reply (context : Context) (w : World) :
  wf w →
  is_command (stripMentionsText (activity context)) = false →
  effects_of (on_message context w)
  = [ContextSend ("[" +:+
       pretty (current_count w (conv_id (activity_conversation (activity context))) + 1)%Z
       +:+ "] you said: " +:+ stripMentionsText (activity context))].
Proof.
  intros Hwf Hcmd. apply (wf_with_ref context) in Hwf.
  set (c := conv_id (activity_conversation (activity context))).
  rewrite <- current_count_default.
  rewrite (on_message_echo _ _ _ _ _ Hcmd). cbv zeta. fold c.
  pose proof (getConversationState_record c _ Hwf) as Hrec.
  change (stored_state (with_ref context w) c) with (stored_state w c) in Hrec.
  change (effects_of (?a, ?b, ?o)) with o. simpl.
  by rewrite lookup_alter_eq, Hrec.
Qed.

(** The replies to a series of echoes that starts at count [n]. *)
Fixpoint echo_replies (n : Z) (contexts : list Context) : list Effect :=
  match contexts with
  | [] => []
  | context :: rest =>
      ContextSend ("[" +:+ pretty (n + 1)%Z +:+ "] you said: "
                   +:+ stripMentionsText (activity context))
      :: echo_replies (n + 1)%Z rest
  end.

(** A message of conversation [c] whose text is no command. *)
Definition echo_for (c : string) (context : Context) : bool :=
  String.eqb (conv_id (activity_conversation (activity context))) c
  && negb (is_command (stripMentionsText (activity context))).

(** X6. Echoes add up: after k messages of one conversation in a row, none
    of them a command, its count is k above what it was, and the replies are
    numbered consecutively from the old count plus 1. *)
Theorem echoes_count_up (w : World) (c : string) (contexts : list Context) :
  reachable w →
  forallb (echo_for c) contexts = true →
  let r := run (map MessageEvent contexts) w in
  current_count (world_of r) c = (current_count w c + Z.of_nat (length contexts))%Z ∧
  effects_of r = echo_replies (current_count w c) contexts.
Proof.
  revert w. induction contexts as [|context rest IH]; intros w Hw Hall r; subst r.
  - split; [|done]. simpl. unfold world_of, mret, M_ret. simpl. lia.
  - simpl in Hall. apply andb_true_iff in Hall as [Hecho Hrest].
    apply andb_true_iff in Hecho as [Hc Hcmd].
    apply String.eqb_eq in Hc. apply negb_true_iff in Hcmd.
    pose proof (reachable_wf _ _ _ _ _ Hw) as Hwf.
    assert (current_count (world_of (on_message context w)) c
            = (current_count w c + 1)%Z) as Hstep.
    { unfold current_count at 1. rewrite <- Hc.
      by rewrite (echo_stored_count _ _ _ _ _ Hwf Hcmd). }
    change (map MessageEvent (context :: rest))
      with (MessageEvent context :: map MessageEvent rest).
    rewrite run_cons_world, run_cons_effects.
    destruct (IH (world_of (handle (MessageEvent context) w))
                 (reachable_event _ _ _ _ _ _ Hw) Hrest) as [Hcount Heffects].
    simpl in Hcount, Heffects. rewrite Hstep in Hcount, Heffects.
    split.
    + simpl. rewrite Hcount. lia.
    + simpl. rewrite Heffects, (echo_reply _ _ Hwf Hcmd), Hc. done.
Qed.

(** ** Counts are never negative *)

Definition heap_nonneg (w : World) : Prop :=
  ∀ l s, heap w !! l = Some s → (0 ≤ count s)%Z.

Lemma heap_nonneg_getConversationState (c : string) (w : World) :
  heap_nonneg w → heap_nonneg (world_of (getConversationState c w)).
Proof.
  intros Hnn. destruct (storage w !! c) as [l|] eqn:Hl.
  - by rewrite (getConversationState_stored c l w Hl).
  - rewrite (getConversationState_fresh c w Hl). intros l s. simpl.
    rewrite lookup_insert. case_decide.
    + by intros [= <-].
    + apply Hnn.
Qed.

Lemma heap_nonneg_on_message (context : Context) (w : World) :
  heap_nonneg w → heap_nonneg (world_of (on_message context w)).
Proof.
  intros Hnn.
  pose proof (heap_nonneg_getConversationState
                (conv_id (activity_conversation (activity context)))
                (with_ref context w) Hnn) as Hget.
  destruct (text_cases (stripMentionsText (activity context)))
    as [H | [H | [H | [H | [H | H]]]]].
  - by rewrite (on_message_reset _ _ _ _ _ H).
  - by rewrite (on_message_count _ _ _ _ _ H).
  - by rewrite (on_message_diag _ _ H).
  - by rewrite (on_message_state _ _ H).
  - by rewrite (on_message_runtime _ _ H).
  - rewrite (on_message_echo _ _ _ _ _ H). intros l s. cbv zeta.
    change (world_of (?a, ?b, ?o)) with b. simpl.
    rewrite lookup_alter. case_decide.
    + destruct (heap _ !! _) as [s0|] eqn:Hs0; [|done]. simpl.
      intros [= <-]. simpl. apply Hget in Hs0. lia.
    + apply Hget.
Qed.

Lemma reachable_heap_nonneg (w : World) : reachable w → heap_nonneg w.
Proof.
  induction 1 as [|w e _ IH|w req_body _ IH|w _ IH].
  - intros l s H. simpl in H. by rewrite lookup_empty in H.
  - destruct e as [context|context]; [done|]. by apply heap_nonneg_on_message.
  - by rewrite post_api_notify_world.
  - done.
Qed.

(** X7. In every reachable state every stored count is at least 0. *)
Theorem counts_never_negative (w : World) (c : string) (n : Z) :
  reachable w → stored_count w c = Some n → (0 ≤ n)%Z.
Proof.
  intros Hw. apply reachable_heap_nonneg in Hw.
  unfold stored_count, stored_state.
  destruct (storage w !! c) as [l|]; [|done]. simpl.
  destruct (heap w !! l) as [s|] eqn:Hs; [|done]. simpl.
  intros [= <-]. by apply (Hw l).
Qed.

(** X8. Fetch-or-init is idempotent: a second [getConversationState] for
    the same conversation returns the very reference the first returned and
    changes nothing more. *)
Theorem getConversationState_idempotent (c : string) (w : World) :
  getConversationState c (world_of (getConversationState c w))
  = (result_of (getConversationState c w), world_of (getConversationState c w), []).
Proof.
  apply getConversationState_stored, getConversationState_returns_stored.
Qed.

(** X9. "/reset" for a conversation that has no state is harmless:
    [storage] and the records stay as they were, and the confirmation is
    sent all the same. *)
Theorem reset_without_state (w : World) (context : Context) :
  stripMentionsText (activity context) = "/reset" →
  storage w !! conv_id (activity_conversation (activity context)) = None →
  let r := on_message context w in
  storage (world_of r) = storage w ∧ heap (world_of r) = heap w ∧
  effects_of r = [ContextSend "Ok I've deleted the current conversation state."].
Proof.
  intros Htext Hnone r. subst r. rewrite (on_message_reset _ _ _ _ _ Htext).
  change (world_of (?a, ?b, ?o)) with b. simpl. by rewrite delete_id.
Qed.

(** ** The registry and its listing *)

Lemma keys_set_prefix {V : Type} (k : string) (v : V) (m : JsMap.t V) :
  JsMap.keys m `prefix_of` JsMap.keys (JsMap.set k v m).
Proof.
  destruct (JsMap.get k m) as [v0|] eqn:E.
  - by rewrite JsMap.keys_set_present.
  - rewrite JsMap.keys_set_absent by done. by apply prefix_app_r.
Qed.

Lemma get_elem_of {V : Type} (k : string) (v : V) (m : JsMap.t V) :
  JsMap.get k m = Some v → (k, v) ∈ m.
Proof.
  induction m as [|[k' v'] rest IH]; simpl; [done|].
  destruct (String.eqb k k') eqn:E.
  - apply String.eqb_eq in E. intros [= ->]. subst. apply list_elem_of_here.
  - intros H. apply list_elem_of_further. by apply IH.
Qed.

Lemma elem_of_get {V : Type} (k : string) (v : V) (m : JsMap.t V) :
  NoDup (JsMap.keys m) → (k, v) ∈ m → JsMap.get k m = Some v.
Proof.
  induction m as [|[k' v'] rest IH]; simpl.
  - by intros _ ?%elem_of_nil.
  - intros [Hnotin Hnd]%NoDup_cons [Heq | Hin]%elem_of_cons.
    + injection Heq as -> ->. by rewrite String.eqb_refl.
    + destruct (String.eqb k k') eqn:E; [|by apply IH].
      apply String.eqb_eq in E. subst k'. exfalso. apply Hnotin.
      change k with (fst (k, v)). by apply list_elem_of_fmap_2.
Qed.

(** X10. The registry only grows, at its end: after any run of inbound
    events the list of known conversations starts with the list before, so
    no conversation is ever forgotten or moved. *)
Theorem registry_only_grows (w : World) (events : list Event) :
  JsMap.keys (conversationReferences w)
  `prefix_of` JsMap.keys (conversationReferences (world_of (run events w))).
Proof.
  revert w. induction events as [|e rest IH]; intros w; [done|].
  rewrite run_cons_world. etrans; [|apply IH].
  rewrite handle_refs. apply keys_set_prefix.
Qed.

(** X11. Events of other conversations leave a conversation's cached
    reference as it is. *)
Theorem registry_untouched_by_others (w : World) (events : list Event) (c : string) :
  forallb (λ e, negb (String.eqb (event_conversation e) c)) events = true →
  cached (world_of (run events w)) c = cached w c.
Proof.
  revert w. induction events as [|e rest IH]; intros w Hall; [done|].
  simpl in Hall. apply andb_true_iff in Hall as [Hne Hrest].
  apply negb_true_iff, String.eqb_neq in Hne.
  rewrite run_cons_world, IH by done.
  unfold cached. rewrite handle_refs. by apply JsMap.get_set_ne.
Qed.

(** The row [GET /api/conversations] makes of a registry entry. *)
Definition summary_of (id : string) (r : ConversationReference) : ConversationSummary :=
  mkSummary id (conversationType (conversation r)) (serviceUrl r).

Lemma get_api_conversations_eq (w : World) :
  get_api_conversations w
  = (map (λ '(id, r), summary_of id r) (conversationReferences w), w, []).
Proof. reflexivity. Qed.

(** X12. [GET /api/conversations] reads only: it changes no table and
    sends nothing.  In a reachable state its rows are, in registry order and
    without repetition, one per known conversation, each with the
    conversation type and service URL of the reference cached for it. *)
Theorem conversations_listing (w : World) :
  reachable w →
  let r := get_api_conversations w in
  world_of r = w ∧ effects_of r = [] ∧
  map summary_conversationId (result_of r) = JsMap.keys (conversationReferences w) ∧
  NoDup (map summary_conversationId (result_of r)) ∧
  (∀ row, row ∈ result_of r ↔
     ∃ cached_ref, cached w (summary_conversationId row) = Some cached_ref
                   ∧ row = summary_of (summary_conversationId row) cached_ref).
Proof.
  intros Hw r. subst r. apply reachable_wf in Hw.
  pose proof (wf_unique_keys _ Hw) as Hnd.
  rewrite get_api_conversations_eq.
  change (world_of (?a, ?b, ?o)) with b. change (effects_of (?a, ?b, ?o)) with o.
  change (result_of (?a, ?b, ?o)) with a.
  assert (map summary_conversationId
              (map (λ '(id, r), summary_of id r) (conversationReferences w))
          = JsMap.keys (conversationReferences w)) as Hids.
  { unfold JsMap.keys. rewrite map_map. apply map_ext. by intros [id r]. }
  split_and!; [done | done | done | by rewrite Hids |].
  intros row. unfold cached. split.
  - intros ([id r] & -> & Hin)%list_elem_of_fmap. exists r. simpl.
    split; [by apply elem_of_get | done].
  - intros (r & Hget & ->). apply get_elem_of in Hget.
    by apply (list_elem_of_fmap_2 (λ '(id, r), summary_of id r)) in Hget.
Qed.

(** X13. Right after an inbound event, install or message, the listing
    has a row for the event's conversation that carries the conversation type
    and service URL of the reference the event came with. *)
Theorem event_conversation_is_listed (w : World) (e : Event) :
  summary_of (event_conversation e) (ref (event_context e))
  ∈ result_of (get_api_conversations (world_of (handle e w))).
Proof.
  rewrite get_api_conversations_eq. change (result_of (?a, ?b, ?o)) with a.
  rewrite handle_refs.
  apply (list_elem_of_fmap_2 (λ '(id, r), summary_of id r)
           _ (event_conversation e, ref (event_context e))).
  apply get_elem_of, JsMap.get_set_eq.
Qed.

(** ** The notifier: what it never does, and its answers *)

(** The four ways a request can go. *)
Lemma notify_cases (req_body : jsval) (w : World) :
  (validated req_body = false
   ∧ post_api_notify req_body w
     = (mkResponse 400 (ErrorBody (JStr "conversationId and message are required")),
        w, []))
  ∨ (validated req_body = true
     ∧ lookup_ref w (destructure req_body "conversationId") = None
     ∧ ∃ body, post_api_notify req_body w = (mkResponse 404 body, w, []))
  ∨ (validated req_body = true
     ∧ ∃ cached_ref e,
         lookup_ref w (destructure req_body "conversationId") = Some cached_ref
         ∧ post_api_notify req_body w = (failure_response e, w, []))
  ∨ (validated req_body = true
     ∧ ∃ cached_ref params target,
         lookup_ref w (destructure req_body "conversationId") = Some cached_ref
         ∧ post_api_notify req_body w
           = (respond (http_send params target), w, [HttpSend params target])).
Proof.
  destruct (validated req_body) eqn:Hv.
  2: { left. split; [done|]. by apply notify_invalid. }
  destruct (lookup_ref w (destructure req_body "conversationId")) as [r|] eqn:Href.
  2: { right. left. split_and!; [done | done |]. rewrite notify_unknown by done. eauto. }
  destruct (build_params (destructure req_body "message")
                         (destructure req_body "mentions")) as [p|e] eqn:Hbuild.
  2: { right. right. left. split; [done|]. exists r, e. split; [done|].
       by apply (notify_build_error _ _ _ r). }
  destruct (reply_target r (destructure req_body "replyToId")) as [t|e] eqn:Htarget.
  - right. right. right. split; [done|]. exists r, p, t. split; [done|].
    by apply (notify_send _ _ _ r).
  - right. right. left. split; [done|]. exists r, e. split; [done|].
    by apply (notify_target_error _ _ _ r p).
Qed.

(** X14. [POST /api/notify] never changes the tables and never replies on
    an inbound channel; whatever the request, it calls the send primitive at
    most once. *)
Theorem notify_touches_nothing (w : World) (req_body : jsval) :
  world_of (post_api_notify req_body w) = w ∧
  (effects_of (post_api_notify req_body w) = []
   ∨ ∃ params target, effects_of (post_api_notify req_body w) = [HttpSend params target]).
Proof.
  split; [apply post_api_notify_world|].
  destruct (notify_cases req_body w)
    as [[_ ->] | [(_ & _ & body & ->)
                 | [(_ & r & e & _ & ->) | (_ & r & p & t & _ & ->)]]];
    eauto.
Qed.

Lemma respond_status (outcome : Completion SentActivity) :
  status_code (respond outcome) = 200%Z ↔ ∃ result, outcome = Normal result.
Proof.
  destruct outcome as [result|err]; simpl.
  - split; eauto.
  - split; [done | by intros [? ?]].
Qed.

(** X15. The status of the answer tells what happened: 400 exactly when
    [conversationId] or [message] is falsy, 404 exactly when both are truthy
    and the conversation is not cached, 200 exactly when the send primitive
    was called and resolved; every other request is answered 500. *)
Theorem notify_status_table (w : World) (req_body : jsval) :
  let r := post_api_notify req_body w in
  (status_code (result_of r) = 400%Z ↔ validated req_body = false) ∧
  (status_code (result_of r) = 404%Z ↔
     validated req_body = true
     ∧ lookup_ref w (destructure req_body "conversationId") = None) ∧
  (status_code (result_of r) = 200%Z ↔
     ∃ params target result,
       effects_of r = [HttpSend params target]
       ∧ http_send params target = Normal result) ∧
  (status_code (result_of r) = 400%Z ∨ status_code (result_of r) = 404%Z
   ∨ status_code (result_of r) = 200%Z ∨ status_code (result_of r) = 500%Z).
Proof.
  intros r. subst r.
  destruct (notify_cases req_body w)
    as [[Hv ->] | [(Hv & Href & body & ->)
                  | [(Hv & cr & e & Href & ->) | (Hv & cr & p & t & Href & ->)]]];
    change (result_of (?a, ?b, ?o)) with a; change (effects_of (?a, ?b, ?o)) with o;
    rewrite ?Hv, ?Href; simpl.
  - split_and!; [by split | | | tauto].
    + split; [done | by intros [? _]].
    + split; [done | by intros (? & ? & ? & ? & _)].
  - split_and!; [by split | by split | | tauto].
    split; [done | by intros (? & ? & ? & ? & _)].
  - split_and!; [by split | | | tauto].
    + split; [done | by intros [_ ?]].
    + split; [done | by intros (? & ? & ? & ? & _)].
  - destruct (http_send p t) as [result|err] eqn:Hsend; simpl.
    + split_and!; [by split | | | tauto].
      * split; [done | by intros [_ ?]].
      * split; [|done]. intros _. eexists p, _, result. split; [reflexivity|].
        exact Hsend.
    + split_and!; [by split | | | tauto].
      * split; [done | by intros [_ ?]].
      * split; [done|]. intros (p' & t' & result & [= <- <-] & Hres). congruence.
Qed.

(** X16. Without a [replyToId], or with a falsy one, a valid request for a
    cached conversation (string message, every mention buildable) is sent
    once, against the cached reference itself. *)
Theorem notify_plain_send (w : World) (req_body : jsval) (m : string)
    (cached_ref : ConversationReference) :
  validated req_body = true →
  destructure req_body "message" = JStr m →
  truthy (destructure req_body "replyToId") = false →
  mentions_ok (destructure req_body "mentions") = true →
  lookup_ref w (destructure req_body "conversationId") = Some cached_ref →
  ∃ params,
    params_from params = JStr m ∧
    post_api_notify req_body w
    = (respond (http_send params cached_ref), w, [HttpSend params cached_ref]).
Proof.
  intros Hv Hm Hr Hok Href.
  destruct (build_params_ok m _ Hok) as (params & Hbuild & Hfrom).
  exists params. split; [done|]. rewrite <- Hm in Hbuild.
  apply (notify_send http_send _ _ cached_ref); try done.
  unfold reply_target. by rewrite Hr.
Qed.

(** ** The payload: mention entities *)

Definition is_string (v : jsval) : bool :=
  match v with
  | JStr _ => true
  | _ => false
  end.

(** A mention as the request format has it: an item that is not [null] or
    [undefined] and whose [name] is a string. *)
Definition named (m : jsval) : bool :=
  negb (nullish m) && is_string (field m "name").

Definition string_of (v : jsval) : string :=
  match v with
  | JStr s => s
  | _ => EmptyString
  end.

(** The entity built for one such item. *)
Definition mention_of (m : jsval) : MentionEntity :=
  mkMention "mention" ("<at>" +:+ string_of (field m "name") +:+ "</at>")
            (field m "id") (field m "name").

Lemma mention_entity_named (m : jsval) :
  named m = true → mention_entity m = Normal (mention_of m).
Proof.
  unfold named, mention_entity, mention_of, get_property.
  intros [Hm Hname]%andb_true_iff.
  destruct m as [| |b|n|s|items|fields]; simpl in *; try done.
  by destruct (lookup_field "name" fields).
Qed.

Lemma map_completion_named (items : list jsval) :
  forallb named items = true →
  map_completion mention_entity items = Normal (map mention_of items).
Proof.
  induction items as [|m rest IH]; simpl; [done|].
  intros [Hm Hrest]%andb_true_iff.
  by rewrite (mention_entity_named m Hm), (IH Hrest).
Qed.

Definition nullish_text (v : jsval) : string :=
  match v with
  | JNull => "null"
  | _ => "undefined"
  end.

Lemma map_completion_throws (good rest : list jsval) (bad : jsval) :
  forallb mention_ok good = true →
  nullish bad = true →
  map_completion mention_entity (good ++ bad :: rest)
  = Throw (TypeError ("Cannot read properties of " +:+ nullish_text bad
                      +:+ " (reading 'name')")).
Proof.
  intros Hgood Hbad. induction good as [|m good' IH]; simpl.
  - by destruct bad.
  - simpl in Hgood. apply andb_true_iff in Hgood as [Hm Hgood'].
    rewrite (IH Hgood'). by destruct (mention_entity_ok m Hm) as [entity ->].
Qed.

(** X17. When [mentions] is a non-empty array of items that are not null
    and carry a string [name], the payload of a string message has one
    mention entity per item, in the order given: type "mention", text
    "<at>NAME</at>" for the item's [name], and the item's [id] and [name]
    as the mentioned account. *)
Theorem build_params_entities (text : string) (items : list jsval) :
  items ≠ [] →
  forallb named items = true →
  build_params (JStr text) (JArr items)
  = Normal (mkParams (JStr text) (Some (map mention_of items))).
Proof.
  intros Hne Hok. unfold build_params. simpl.
  destruct items as [|m rest]; [done|].
  change (0 <? length (m :: rest))%nat with true. cbv iota.
  by rewrite (map_completion_named _ Hok).
Qed.

(** X18. [mentions] that is absent, not an array (a string, an object, a
    number ...) or an empty array is ignored: the payload is the one built
    from the message alone, with no entities. *)
Theorem build_params_without_mentions (text : string) (mentions : jsval) :
  Array_isArray mentions = false ∨ mentions = JArr [] →
  build_params (JStr text) mentions = Normal (toActivityParams (JStr text)).
Proof.
  intros [Hna | ->]; unfold build_params.
  - by rewrite Hna, andb_false_r.
  - reflexivity.
Qed.

(** X19. A [null] or [undefined] item among the mentions aborts a request
    with a string message before anything is sent: when the items before it
    build without error, the answer is a 500 whose error is the TypeError
    raised on reading [name] of that item, even though the conversation is
    cached and the request valid. *)
Theorem notify_nullish_mention (w : World) (req_body : jsval)
    (cached_ref : ConversationReference) (m : string)
    (good rest : list jsval) (bad : jsval) :
  validated req_body = true →
  lookup_ref w (destructure req_body "conversationId") = Some cached_ref →
  destructure req_body "message" = JStr m →
  destructure req_body "mentions" = JArr (good ++ bad :: rest) →
  forallb mention_ok good = true →
  nullish bad = true →
  post_api_notify req_body w
  = (mkResponse 500 (ErrorBody (JStr ("Cannot read properties of " +:+ nullish_text bad
                                      +:+ " (reading 'name')"))),
     w, []).
Proof.
  intros Hv Href _ Hmentions Hgood Hbad.
  rewrite (notify_build_error http_send _ _ cached_ref
             (TypeError ("Cannot read properties of " +:+ nullish_text bad
                         +:+ " (reading 'name')")) Hv Href).
  - reflexivity.
  - rewrite Hmentions. unfold build_params. simpl.
    assert ((0 <? length (good ++ bad :: rest))%nat = true) as ->.
    { apply Nat.ltb_lt. rewrite length_app. simpl. lia. }
    by rewrite (map_completion_throws _ _ _ Hgood Hbad).
Qed.

(** X20. A [conversationId] that is not a string (a number, an array, an
    object ...) never reaches the send primitive: no registry key equals it,
    so the answer is 404, or 400 when validation fails. *)
Theorem notify_non_string_conversationId (w : World) (req_body : jsval) :
  is_string (destructure req_body "conversationId") = false →
  effects_of (post_api_notify req_body w) = [] ∧
  (status_code (result_of (post_api_notify req_body w)) = 400%Z
   ∨ status_code (result_of (post_api_notify req_body w)) = 404%Z).
Proof.
  intros Hns.
  assert (lookup_ref w (destructure req_body "conversationId") = None) as Hnone.
  { unfold lookup_ref. by destruct (destructure req_body "conversationId"). }
  destruct (validated req_body) eqn:Hv.
  - rewrite (notify_unknown http_send _ _ Hv Hnone). split; [done | by right].
  - rewrite (notify_invalid http_send _ _ Hv). split; [done | by left].
Qed.

(** X21. One inbound event is enough to be notified: right after an event
    of a conversation, install or message, a valid request for that
    conversation (non-empty identifier, string message, no [replyToId], every
    mention buildable) is sent once, against the reference that event
    carried. *)
Theorem notify_after_event (w : World) (e : Event) (req_body : jsval) (m : string) :
  validated req_body = true →
  destructure req_body "conversationId" = JStr (event_conversation e) →
  destructure req_body "message" = JStr m →
  truthy (destructure req_body "replyToId") = false →
  mentions_ok (destructure req_body "mentions") = true →
  let w' := world_of (handle e w) in
  ∃ params,
    params_from params = JStr m ∧
    post_api_notify req_body w'
    = (respond (http_send params (ref (event_context e))), w',
       [HttpSend params (ref (event_context e))]).
Proof.
  intros Hv Hc Hm Hr Hok w'.
  assert (lookup_ref w' (destructure req_body "conversationId")
          = Some (ref (event_context e))) as Href.
  { rewrite Hc. unfold lookup_ref, w'. rewrite handle_refs. apply JsMap.get_set_eq. }
  destruct (build_params_ok m _ Hok) as (params & Hbuild & Hfrom).
  exists params. split; [done|]. rewrite <- Hm in Hbuild.
  apply (notify_send http_send _ _ (ref (event_context e))); try done.
  unfold reply_target. by rewrite Hr.
Qed.

(** ** Two more compositions *)

(** X22. After "/reset" counting starts again: the next message of the
    conversation that is no command is answered "[1] you said: <text>",
    whatever the count was before the reset. *)
Theorem reset_then_echo (w : World) (context1 context2 : Context) :
  reachable w →
  stripMentionsText (activity context1) = "/reset" →
  is_command (stripMentionsText (activity context2)) = false →
  conv_id (activity_conversation (activity context2))
  = conv_id (activity_conversation (activity context1)) →
  effects_of (on_message context2 (world_of (on_message context1 w)))
  = [ContextSend ("[1] you said: " +:+ stripMentionsText (activity context2))].
Proof.
  intros Hw Hreset Hcmd Hsame.
  pose proof (wf_on_message stripMentionsText JSON_stringify_activity process_version
                context1 w (reachable_wf _ _ _ _ _ Hw)) as Hwf.
  rewrite (echo_reply _ _ Hwf Hcmd), Hsame.
  assert (current_count (world_of (on_message context1 w))
                        (conv_id (activity_conversation (activity context1))) = 0%Z)
    as ->; [|done].
  rewrite (on_message_reset _ _ _ _ _ Hreset).
  change (world_of (?a, ?b, ?o)) with b.
  unfold current_count, stored_count, stored_state. simpl.
  by rewrite lookup_delete_eq.
Qed.

(** The known conversations after one more contact: a conversation seen
    before keeps its place, a new one goes to the end. *)
Definition contact (seen : list string) (c : string) : list string :=
  if bool_decide (c ∈ seen) then seen else seen ++ [c].

(** X23. The registry lists the conversations in the order of their first
    contact, each once however many events it had: after a run of inbound
    events its keys are the keys before, followed by the conversations new
    to it in the order in which they first appeared in the run. *)
Theorem known_in_order_of_first_contact (w : World) (events : list Event) :
  JsMap.keys (conversationReferences (world_of (run events w)))
  = foldl contact (JsMap.keys (conversationReferences w))
          (map event_conversation events).
Proof.
  revert w. induction events as [|e rest IH]; intros w; [done|].
  rewrite run_cons_world, IH, handle_refs. simpl. f_equal.
  unfold contact. case_bool_decide as Hin.
  - apply JsMap.keys_set_present. by apply JsMap.elem_of_keys.
  - apply JsMap.keys_set_absent.
    destruct (JsMap.get (event_conversation e) (conversationReferences w)) eqn:E;
      [|done].
    exfalso. apply Hin, JsMap.elem_of_keys. by rewrite E.
Qed.

End Coverage.

(** ** Concrete runs of the further properties *)

Lemma store_refines_counter_map_witness :
  store_view (world_of (run Sample.strip Sample.stringify Sample.version
                            [MessageEvent (Sample.inbound "c1" "hello" "https://a.example");
                             MessageEvent (Sample.inbound "c2" "/count" "https://b.example");
                             InstallAdd (Sample.inbound "c3" "" "https://c.example");
                             MessageEvent (Sample.inbound "c1" "/state" "https://a.example")]
                            Sample.after_hello))
  = <["c2" := mkState 0]> (<["c1" := mkState 2]> ∅).
Proof.
  rewrite (store_refines_counter_map Sample.strip Sample.stringify Sample.version
             Sample.send_ok Sample.after_hello _
             (Sample.after_hello_reachable Sample.send_ok)).
  vm_compute. reflexivity.
Defined.

Lemma message_leaves_other_conversations_witness :
  stored_state (world_of (Sample.receive (Sample.inbound "c2" "hi" "https://b.example")
                                         Sample.after_hello)) "c1"
  = Some (mkState 1).
Proof.
  unfold Sample.receive.
  rewrite (message_leaves_other_conversations
             Sample.strip Sample.stringify Sample.version Sample.send_ok
             Sample.after_hello (Sample.inbound "c2" "hi" "https://b.example") "c1"
             (Sample.after_hello_reachable Sample.send_ok) ltac:(discriminate)).
  vm_compute. reflexivity.
Defined.

Lemma state_command_reply_witness :
  effects_of (Sample.receive (Sample.inbound "c1" "/state" "https://a.example")
                             Sample.after_hello)
  = [ContextSend ("{" +:+ dquote +:+ "count" +:+ dquote +:+ ":1}")].
Proof.
  exact (proj1 (state_command_reply
                  Sample.strip Sample.stringify Sample.version Sample.send_ok
                  Sample.after_hello (Sample.inbound "c1" "/state" "https://a.example")
                  (Sample.after_hello_reachable Sample.send_ok) eq_refl)).
Defined.

Lemma diag_runtime_leave_state_witness :
  storage (world_of (Sample.receive (Sample.inbound "c9" "/runtime" "https://a.example")
                                    init_world))
  = storage init_world
  ∧ effects_of (Sample.receive (Sample.inbound "c9" "/runtime" "https://a.example")
                               init_world)
    = [ContextSend (JSON_stringify_runtime Sample.version "2.0.0")].
Proof.
  destruct (diag_runtime_leave_state
              Sample.strip Sample.stringify Sample.version init_world
              (Sample.inbound "c9" "/runtime" "https://a.example")
              (or_intror eq_refl)) as (Hstorage & _ & Hreply).
  split; [exact Hstorage | exact Hreply].
Defined.

Lemma echoes_count_up_witness :
  current_count
    (world_of (run Sample.strip Sample.stringify Sample.version
                   (map MessageEvent
                        [Sample.inbound "c1" "hello" "https://a.example";
                         Sample.inbound "c1" "again" "https://a.example";
                         Sample.inbound "c1" "bye" "https://a.example"])
                   Sample.after_hello)) "c1"
  = 4%Z
  ∧ effects_of (run Sample.strip Sample.stringify Sample.version
                    (map MessageEvent
                         [Sample.inbound "c1" "hello" "https://a.example";
                          Sample.inbound "c1" "again" "https://a.example";
                          Sample.inbound "c1" "bye" "https://a.example"])
                    Sample.after_hello)
    = [ContextSend "[2] you said: hello"; ContextSend "[3] you said: again";
       ContextSend "[4] you said: bye"].
Proof.
  exact (echoes_count_up Sample.strip Sample.stringify Sample.version Sample.send_ok
           Sample.after_hello "c1"
           [Sample.inbound "c1" "hello" "https://a.example";
            Sample.inbound "c1" "again" "https://a.example";
            Sample.inbound "c1" "bye" "https://a.example"]
           (Sample.after_hello_reachable Sample.send_ok) eq_refl).
Defined.

Lemma counts_never_negative_witness :
  stored_count Sample.after_hello "c1" = Some 1%Z ∧ (0 ≤ 1)%Z.
Proof.
  split; [reflexivity|].
  exact (counts_never_negative Sample.strip Sample.stringify Sample.version Sample.send_ok
           Sample.after_hello "c1" 1%Z
           (Sample.after_hello_reachable Sample.send_ok) eq_refl).
Defined.

Lemma reset_without_state_witness :
  storage (world_of (Sample.receive (Sample.inbound "c1" "/reset" "https://a.example")
                                    init_world))
  = storage init_world
  ∧ effects_of (Sample.receive (Sample.inbound "c1" "/reset" "https://a.example")
                               init_world)
    = [ContextSend "Ok I've deleted the current conversation state."].
Proof.
  destruct (reset_without_state
              Sample.strip Sample.stringify Sample.version init_world
              (Sample.inbound "c1" "/reset" "https://a.example")
              eq_refl eq_refl) as (Hstorage & _ & Hreply).
  split; [exact Hstorage | exact Hreply].
Defined.

Lemma registry_untouched_by_others_witness :
  cached (world_of (run Sample.strip Sample.stringify Sample.version
                        [MessageEvent (Sample.inbound "c1" "hello" "https://b.example");
                         InstallAdd (Sample.inbound "c2" "" "https://c.example")]
                        Sample.knows_abc)) "abc"
  = Some (Sample.reference "abc" "https://a.example").
Proof.
  exact (registry_untouched_by_others Sample.strip Sample.stringify Sample.version
           Sample.knows_abc
           [MessageEvent (Sample.inbound "c1" "hello" "https://b.example");
            InstallAdd (Sample.inbound "c2" "" "https://c.example")]
           "abc" eq_refl).
Defined.

Lemma conversations_listing_witness :
  map summary_conversationId (result_of (get_api_conversations Sample.after_hello))
  = ["c1"]
  ∧ mkSummary "c1" (Some "channel") "https://a.example"
    ∈ result_of (get_api_conversations Sample.after_hello).
Proof.
  destruct (conversations_listing Sample.strip Sample.stringify Sample.version
              Sample.send_ok Sample.after_hello
              (Sample.after_hello_reachable Sample.send_ok))
    as (_ & _ & Hids & _ & Hrows).
  split; [exact Hids|].
  apply (Hrows (mkSummary "c1" (Some "channel") "https://a.example")).
  exists (Sample.reference "c1" "https://a.example"). split; reflexivity.
Defined.

Lemma notify_plain_send_witness :
  ∃ params,
    params_from params = JStr "hi"
    ∧ post_api_notify Sample.send_ok
        (Sample.request [("conversationId", JStr "abc"); ("message", JStr "hi")])
        Sample.knows_abc
      = (mkResponse 200 (SentBody "sent" "1712345678901"), Sample.knows_abc,
         [HttpSend params (Sample.reference "abc" "https://a.example")]).
Proof.
  exact (notify_plain_send Sample.send_ok Sample.knows_abc
           (Sample.request [("conversationId", JStr "abc"); ("message", JStr "hi")])
           "hi" (Sample.reference "abc" "https://a.example")
           eq_refl eq_refl eq_refl eq_refl eq_refl).
Defined.

Lemma build_params_entities_witness :
  build_params (JStr "hi <at>Bob</at>")
               (JArr [JObj [("id", JStr "u1"); ("name", JStr "Bob")]])
  = Normal (mkParams (JStr "hi <at>Bob</at>")
                     (Some [mkMention "mention" "<at>Bob</at>" (JStr "u1") (JStr "Bob")])).
Proof.
  exact (build_params_entities "hi <at>Bob</at>"
           [JObj [("id", JStr "u1"); ("name", JStr "Bob")]]
           ltac:(discriminate) eq_refl).
Defined.

Lemma build_params_without_mentions_witness :
  build_params (JStr "hi") (JStr "Bob") = Normal (toActivityParams (JStr "hi")).
Proof.
  exact (build_params_without_mentions "hi" (JStr "Bob") (or_introl eq_refl)).
Defined.

Lemma notify_nullish_mention_witness :
  post_api_notify Sample.send_ok
    (Sample.request [("conversationId", JStr "abc"); ("message", JStr "hi");
                     ("mentions", JArr [JObj [("id", JStr "u1"); ("name", JStr "Bob")];
                                        JNull; JStr "x"])])
    Sample.knows_abc
  = (mkResponse 500 (ErrorBody (JStr "Cannot read properties of null (reading 'name')")),
     Sample.knows_abc, []).
Proof.
  exact (notify_nullish_mention Sample.send_ok Sample.knows_abc
           (Sample.request [("conversationId", JStr "abc"); ("message", JStr "hi");
                            ("mentions", JArr [JObj [("id", JStr "u1"); ("name", JStr "Bob")];
                                               JNull; JStr "x"])])
           (Sample.reference "abc" "https://a.example") "hi"
           [JObj [("id", JStr "u1"); ("name", JStr "Bob")]] [JStr "x"] JNull
           eq_refl eq_refl eq_refl eq_refl eq_refl eq_refl).
Defined.

Lemma notify_non_string_conversationId_witness :
  effects_of (post_api_notify Sample.send_ok
                (Sample.request [("conversationId", JNum 42); ("message", JStr "hi")])
                Sample.knows_abc)
  = []
  ∧ status_code (result_of (post_api_notify Sample.send_ok
                   (Sample.request [("conversationId", JNum 42); ("message", JStr "hi")])
                   Sample.knows_abc))
    = 404%Z.
Proof.
  destruct (notify_non_string_conversationId Sample.send_ok Sample.knows_abc
              (Sample.request [("conversationId", JNum 42); ("message", JStr "hi")])
              eq_refl) as [Hnone _].
  split; [exact Hnone | reflexivity].
Defined.

Lemma notify_after_event_witness :
  ∃ params,
    params_from params = JStr "welcome"
    ∧ post_api_notify Sample.send_ok
        (Sample.request [("conversationId", JStr "c7"); ("message", JStr "welcome")])
        (world_of (handle Sample.strip Sample.stringify Sample.version
                          (InstallAdd (Sample.inbound "c7" "" "https://a.example"))
                          init_world))
      = (mkResponse 200 (SentBody "sent" "1712345678901"),
         world_of (handle Sample.strip Sample.stringify Sample.version
                          (InstallAdd (Sample.inbound "c7" "" "https://a.example"))
                          init_world),
         [HttpSend params (Sample.reference "c7" "https://a.example")]).
Proof.
  exact (notify_after_event Sample.strip Sample.stringify Sample.version Sample.send_ok
           init_world (InstallAdd (Sample.inbound "c7" "" "https://a.example"))
           (Sample.request [("conversationId", JStr "c7"); ("message", JStr "welcome")])
           "welcome" eq_refl eq_refl eq_refl eq_refl eq_refl).
Defined.

Lemma reset_then_echo_witness :
  effects_of (Sample.receive (Sample.inbound "c1" "hello again" "https://a.example")
                (world_of (Sample.receive (Sample.inbound "c1" "/reset" "https://a.example")
                                          Sample.after_hello)))
  = [ContextSend "[1] you said: hello again"].
Proof.
  exact (reset_then_echo Sample.strip Sample.stringify Sample.version Sample.send_ok
           Sample.after_hello
           (Sample.inbound "c1" "/reset" "https://a.example")
           (Sample.inbound "c1" "hello again" "https://a.example")
           (Sample.after_hello_reachable Sample.send_ok) eq_refl eq_refl eq_refl).
Defined.

(** ** Conversions that throw, and numbers in exponent form *)

(** A mention whose [name] is an object with an own [toString] key cannot
    be put into the template literal: the request is answered 500 and
    nothing is sent. *)
Lemma notify_unconvertible_name :
  post_api_notify Sample.send_ok
    (Sample.request [("conversationId", JStr "abc"); ("message", JStr "hi");
                     ("replyToId", JStr "m1");
                     ("mentions",
                      JArr [JObj [("id", JStr "u1");
                                  ("name", JObj [("toString", JNum 1)])]])])
    Sample.knows_abc
  = (mkResponse 500 (ErrorBody (JStr "Cannot convert object to primitive value")),
     Sample.knows_abc, []).
Proof. vm_compute. reflexivity. Qed.

(** A number as message passes validation; with mentions, setting
    [entities] on it throws. *)
Lemma notify_number_message_with_mentions :
  post_api_notify Sample.send_ok
    (Sample.request [("conversationId", JStr "abc"); ("message", JNum 5);
                     ("mentions", JArr [JObj [("id", JStr "u1"); ("name", JStr "Bob")]])])
    Sample.knows_abc
  = (mkResponse 500 (ErrorBody (JStr "Cannot create property 'entities' on number '5'")),
     Sample.knows_abc, []).
Proof. vm_compute. reflexivity. Qed.

(** A [replyToId] that cannot be converted aborts the request as well. *)
Lemma notify_unconvertible_replyToId :
  post_api_notify Sample.send_ok
    (Sample.request [("conversationId", JStr "abc"); ("message", JStr "hi");
                     ("replyToId", JArr [JObj [("toString", JNull)]])])
    Sample.knows_abc
  = (mkResponse 500 (ErrorBody (JStr "Cannot convert object to primitive value")),
     Sample.knows_abc, []).
Proof. vm_compute. reflexivity. Qed.

Lemma ToString_examples :
  ToString (JNum (10 ^ 21)) = Normal "1e+21"
  ∧ ToString (JNum (2 ^ 64)) = Normal "18446744073709552000"
  ∧ ToString (JNum (2 ^ 70)) = Normal "1.1805916207174113e+21"
  ∧ ToString (JNum (10 ^ 23)) = Normal "1e+23"
  ∧ ToString (JNum (- (15 * 10 ^ 20))) = Normal "-1.5e+21"
  ∧ ToString (JNum 9007199254740993) = Normal "9007199254740992"
  ∧ ToString (JArr [JNum 1; JNull; JStr "a"; JArr [JBool true; JUndefined]])
    = Normal "1,,a,true,"
  ∧ ToString (JObj [("name", JStr "x")]) = Normal "[object Object]"
  ∧ ToString (JObj [("toString", JStr "x")])
    = Throw (TypeError "Cannot convert object to primitive value").
Proof. vm_compute. repeat split. Qed.
